(** * A shallow embedding of [download_install_tool.py]

    The tool reads a spreadsheet ledger of applications, downloads each
    package, installs it through [adb] and writes the per-application
    statuses back to the ledger.  This file models the functions of the
    script over explicit inputs for everything the script obtains from the
    outside world (the output of [adb], HTTP responses, the file system,
    the operator's input line). *)

From Stdlib Require Import String Ascii ZArith Bool Lia Permutation.
From stdpp Require Import base list.

Open Scope Z_scope.

(** ** Python text

    A Python [str] is a sequence of Unicode code points. *)
Module Py.

Definition pystr := list Z.

(** UTF-8 decoding of a Rocq byte string, used to write literals. *)
Fixpoint utf8_go (pending : nat) (acc : Z) (bs : list Z) : list Z :=
  match bs with
  | [] => []
  | b :: r =>
      match pending with
      | O =>
          if b <? 128 then b :: utf8_go 0 0 r
          else if b <? 224 then utf8_go 1 (b - 192) r
          else if b <? 240 then utf8_go 2 (b - 224) r
          else utf8_go 3 (b - 240) r
      | S O => (acc * 64 + (b - 128)) :: utf8_go 0 0 r
      | S p => utf8_go p (acc * 64 + (b - 128)) r
      end
  end.

Definition u (s : string) : pystr :=
  utf8_go 0 0 (List.map (fun a => Z.of_nat (nat_of_ascii a)) (list_ascii_of_string s)).

Definition streq (a b : pystr) : bool := bool_decide (a = b).

(** [str.isspace] for one code point. *)
Definition is_space (c : Z) : bool :=
  ((9 <=? c) && (c <=? 13)) || ((28 <=? c) && (c <=? 32)) ||
  (c =? 133) || (c =? 160) || (c =? 5760) ||
  ((8192 <=? c) && (c <=? 8202)) || (c =? 8232) || (c =? 8233) ||
  (c =? 8239) || (c =? 8287) || (c =? 12288).

(** The line boundaries of [str.splitlines] other than [\r]. *)
Definition is_linebreak (c : Z) : bool :=
  (c =? 10) || (c =? 11) || (c =? 12) || (c =? 28) || (c =? 29) ||
  (c =? 30) || (c =? 133) || (c =? 8232) || (c =? 8233).

(** [s.splitlines()]: [\r\n] is one boundary; no trailing empty line. *)
Fixpoint splitlines_go (cur : pystr) (s : pystr) : list pystr :=
  match s with
  | [] => match cur with [] => [] | _ => [rev cur] end
  | c :: r =>
      if c =? 13 then
        match r with
        | d :: r' => if d =? 10 then rev cur :: splitlines_go [] r'
                     else rev cur :: splitlines_go [] r
        | [] => rev cur :: splitlines_go [] r
        end
      else if is_linebreak c then rev cur :: splitlines_go [] r
      else splitlines_go (c :: cur) r
  end.

Definition splitlines (s : pystr) : list pystr := splitlines_go [] s.

(** [s.split()]: runs of whitespace separate, empty fields dropped. *)
Fixpoint split_go (cur : pystr) (s : pystr) : list pystr :=
  match s with
  | [] => match cur with [] => [] | _ => [rev cur] end
  | c :: r =>
      if is_space c then
        match cur with
        | [] => split_go [] r
        | _ => rev cur :: split_go [] r
        end
      else split_go (c :: cur) r
  end.

Definition split (s : pystr) : list pystr := split_go [] s.

(** [s.endswith(suf)] *)
Definition endswith (s suf : pystr) : bool :=
  (Nat.leb (length suf) (length s)) &&
  streq (drop (length s - length suf) s) suf.

(** [needle in hay] for strings. *)
Fixpoint is_prefix (p s : pystr) : bool :=
  match p, s with
  | [], _ => true
  | c :: p', d :: s' => (c =? d) && is_prefix p' s'
  | _ :: _, [] => false
  end.

Fixpoint contains (hay needle : pystr) : bool :=
  is_prefix needle hay ||
  match hay with [] => false | _ :: r => contains r needle end.

(** [s.strip()] *)
Fixpoint lstrip (s : pystr) : pystr :=
  match s with
  | c :: r => if is_space c then lstrip r else s
  | [] => []
  end.

Definition strip (s : pystr) : pystr := rev (lstrip (rev (lstrip s))).

(** [s.lower()] on ASCII letters.  Every other code point is kept: among
    all code points only [Y] and [y] have a lowercase containing [y], so
    comparisons of a lowercased string with ["y"] are exact. *)
Definition lower_char (c : Z) : Z :=
  if (65 <=? c) && (c <=? 90) then c + 32 else c.

Definition lower (s : pystr) : pystr := List.map lower_char s.

End Py.

Import Py.

(** ** [check_device_online]

    [adb_out] is the decoded standard output of [adb devices]; [None]
    stands for an exception raised while running [adb] or decoding its
    output, which the [except Exception] branch turns into [None]. *)
Definition ready_lines (out : pystr) : list pystr :=
  filter (fun l => endswith l (u "device") = true) (splitlines out).

Definition check_device_online (adb_out : option pystr) : option pystr :=
  match adb_out with
  | None => None
  | Some out =>
      let devices := ready_lines out in
      if Nat.eqb (length devices) 0 then None
      else if Nat.ltb 1 (length devices) then None
      else match devices with
           | d :: _ =>
               (* [devices[0].split()[0]]; an IndexError is caught *)
               match split d with t :: _ => Some t | [] => None end
           | [] => None
           end
  end.
(** ** The ledger ([download.xlsx])

    One row per DataFrame row, with the four columns of the sheet
    ([应用名], [下载链接], [下载状态], [安装状态]).  The frame read by
    [pd.read_excel] carries the default [RangeIndex], so the label
    [index] of a row is its position. *)
Record row := mkrow {
  app_name : pystr;      (* 应用名 *)
  link : pystr;          (* 下载链接 *)
  dl_status : pystr;     (* 下载状态 *)
  inst_status : pystr    (* 安装状态 *)
}.

Abbreviation ledger := (list row).

Definition names (df : ledger) : list pystr := List.map app_name df.

(** The DataFrame transformation of [update_excel_status]:
    [app_name in df['应用名'].values] decides between updating the row at
    [df[df['应用名'] == app_name].index[0]] (the first row with that name)
    and appending a new row with [pd.concat]. *)
Definition update_excel_status (df : ledger) (app_name' url download_status
    install_status : pystr) : ledger :=
  if existsb (fun n => streq n app_name') (names df) then
    match list_find (fun r => app_name r = app_name') df with
    | Some (index, r) =>
        <[index := {| app_name := app_name r; link := link r;
                      dl_status := download_status;
                      inst_status := install_status |}]> df
    | None => df
    end
  else df ++ [{| app_name := app_name'; link := url;
                 dl_status := download_status;
                 inst_status := install_status |}].

(** Rows carrying a given name. *)
Definition rows_named (n : pystr) (df : ledger) : ledger :=
  filter (fun r => app_name r = n) df.

(** ** Exceptions

    A raised Python exception: its class name and [str(e)]. *)
Record exn := mkexn { exn_type : pystr; exn_str : pystr }.

(** ** More Python text: numbers, [repr], paths *)
Module PyMore.

Fixpoint dec_go (fuel : nat) (n : Z) (acc : pystr) : pystr :=
  match fuel with
  | O => acc
  | S f => let acc' := (48 + n mod 10) :: acc in
           if n <? 10 then acc' else dec_go f (n / 10) acc'
  end.

(** [str(n)] / [%d] for an integer. *)
Definition z_dec (n : Z) : pystr :=
  if n <? 0 then 45 :: dec_go (S (Z.to_nat (Z.log2 (- n)))) (- n) []
  else dec_go (S (Z.to_nat (Z.log2 n))) n [].

Definition hexdig (d : Z) : Z := if d <? 10 then 48 + d else 87 + d.

(** [repr(s)]: single quotes unless the text holds a single quote and no
    double quote.  Escapes backslash, the quote, [\n], [\r], [\t] and the
    ASCII and Latin-1 control characters as [\xNN]; other code points
    are kept. *)
Definition repr_char (q c : Z) : pystr :=
  if c =? 92 then [92; 92]
  else if c =? q then [92; q]
  else if c =? 10 then [92; 110]
  else if c =? 13 then [92; 114]
  else if c =? 9 then [92; 116]
  else if (c <? 32) || ((127 <=? c) && (c <=? 160)) || (c =? 173)
  then [92; 120; hexdig (c / 16); hexdig (c mod 16)]
  else [c].

Definition repr (s : pystr) : pystr :=
  let q := if existsb (Z.eqb 39) s && negb (existsb (Z.eqb 34) s) then 34 else 39 in
  q :: flat_map (repr_char q) s ++ [q].

Fixpoint join_with (sep : pystr) (xs : list pystr) : pystr :=
  match xs with
  | [] => []
  | [x] => x
  | x :: xs' => x ++ sep ++ join_with sep xs'
  end.

(** [str(lst)] for a list of strings. *)
Definition repr_list (xs : list pystr) : pystr :=
  [91] ++ join_with (u ", ") (List.map repr xs) ++ [93].

(** [int(s)] for a string: surrounding whitespace, an optional sign and
    ASCII decimal digits.  (Python also accepts [_] between digits and
    non-ASCII decimal digits.) *)
Definition is_digit (c : Z) : bool := (48 <=? c) && (c <=? 57).

Fixpoint digits_val (acc : Z) (s : pystr) : Z :=
  match s with [] => acc | c :: r => digits_val (acc * 10 + (c - 48)) r end.

Definition value_error (msg : pystr) : exn := mkexn (u "ValueError") msg.

Definition py_int (s : pystr) : exn + Z :=
  let t := strip s in
  let bad := inl (value_error (u "invalid literal for int() with base 10: " ++ repr s)) in
  let '(sg, ds) := match t with
                   | c :: r => if c =? 45 then (-1, r) else if c =? 43 then (1, r) else (1, t)
                   | [] => (1, [])
                   end in
  match ds with
  | [] => bad
  | _ => if forallb is_digit ds then inr (sg * digits_val 0 ds) else bad
  end.

(** [os.path.join(a, b)] on POSIX. *)
Definition path_join (a b : pystr) : pystr :=
  match b with
  | 47 :: _ => b
  | _ => match a with
         | [] => b
         | _ => if endswith a [47] then a ++ b else a ++ [47] ++ b
         end
  end.

(** [os.path.splitext(p)[0]] on POSIX: the text before the last dot of the
    last path component, unless that component is all dots before it. *)
Fixpoint last_index (c : Z) (s : pystr) (i : nat) (acc : option nat) : option nat :=
  match s with
  | [] => acc
  | d :: r => last_index c r (S i) (if d =? c then Some i else acc)
  end.

Definition splitext_root (p : pystr) : pystr :=
  let sep := last_index 47 p 0 None in
  let start := match sep with Some k => S k | None => O end in
  match last_index 46 p 0 None with
  | Some dot =>
      if Nat.ltb start dot
         && existsb (fun c => negb (c =? 46)) (take (dot - start) (drop start p))
      then take dot p else p
  | None => p
  end.

End PyMore.

Import PyMore.

(** ** The outside world

    An HTTP response as [requests] exposes it to the script. *)
Record response := mkresponse {
  status_code : Z;
  reason : pystr;
  resp_url : pystr;
  content_length : option pystr;   (* the [content-length] header *)
  body : list (list Z);            (* the chunks of [iter_content(1024)] *)
  body_error : option exn          (* raised while streaming the body *)
}.

(** Outcome of [subprocess.run] with [check=True]: the tool ran and
    exited with a return code (its output goes to the terminal, it is not
    captured), or starting it raised (e.g. [FileNotFoundError]). *)
Inductive run_result :=
| Exited (returncode : Z) (tool_output : pystr)
| RunError (e : exn).

Record world := mkworld {
  http_get : pystr -> exn + response;     (* requests.get(url, stream=True, timeout=30) *)
  open_error : pystr -> option exn;       (* open(path, 'wb') *)
  adb_install : pystr -> pystr -> run_result;  (* adb -s <id> install <path> *)
  remove_error : pystr -> option exn      (* os.remove(path) *)
}.

(** The counters of the workflows ([nonlocal] variables). *)
Record counters := mkcounters {
  download_success : nat;
  download_failure : nat;
  total_installs : nat;
  install_success : nat;
  install_failure : nat
}.

Definition counters0 := mkcounters 0 0 0 0 0.

(** Observable actions, in the order they happen. *)
Inductive event :=
| EvGet (url : pystr)
| EvInstall (device_id apk_path : pystr)
| EvUpsert (app_name url download_status install_status : pystr)
| EvRemove (path : pystr).

(** Program state: binary files by path, spreadsheets by path, the
    counters of the running workflow and the event log. *)
Record st := mkst {
  files : list (pystr * list Z);
  sheets : list (pystr * ledger);
  cnt : counters;
  log : list event
}.

(** ** A state and exception monad *)
Definition M (A : Type) := st -> (exn + A) * st.

Definition ret {A} (a : A) : M A := fun s => (inr a, s).

Definition bind {A B} (m : M A) (k : A -> M B) : M B :=
  fun s => match m s with
           | (inr a, s') => k a s'
           | (inl e, s') => (inl e, s')
           end.

Notation "'let*' x := m 'in' k" := (bind m (fun x => k))
  (at level 200, x name, m at level 100, k at level 200).

Definition raise {A} (e : exn) : M A := fun s => (inl e, s).

Definition lift {A} (r : exn + A) : M A := fun s => (r, s).

(** [try: m except: h] catching every exception. *)
Definition try_except {A} (m : M A) (h : exn -> M A) : M A :=
  fun s => match m s with
           | (inl e, s') => h e s'
           | (inr a, s') => (inr a, s')
           end.

Definition get_st : M st := fun s => (inr s, s).
Definition put_st (s : st) : M unit := fun _ => (inr tt, s).

Definition emit (ev : event) : M unit :=
  fun s => (inr tt, mkst (files s) (sheets s) (cnt s) (log s ++ [ev])).

Definition modify_cnt (f : counters -> counters) : M unit :=
  fun s => (inr tt, mkst (files s) (sheets s) (f (cnt s)) (log s)).

Definition incr_download_success (c : counters) :=
  mkcounters (S (download_success c)) (download_failure c) (total_installs c)
    (install_success c) (install_failure c).
Definition incr_download_failure (c : counters) :=
  mkcounters (download_success c) (S (download_failure c)) (total_installs c)
    (install_success c) (install_failure c).
Definition incr_total_installs (c : counters) :=
  mkcounters (download_success c) (download_failure c) (S (total_installs c))
    (install_success c) (install_failure c).
Definition incr_install_success (c : counters) :=
  mkcounters (download_success c) (download_failure c) (total_installs c)
    (S (install_success c)) (install_failure c).
Definition incr_install_failure (c : counters) :=
  mkcounters (download_success c) (download_failure c) (total_installs c)
    (install_success c) (S (install_failure c)).

(** Association-list file system. *)
Fixpoint assoc_set {V} (k : pystr) (v : V) (l : list (pystr * V)) : list (pystr * V) :=
  match l with
  | [] => [(k, v)]
  | (k', v') :: r => if streq k' k then (k, v) :: r else (k', v') :: assoc_set k v r
  end.

Fixpoint assoc_get {V} (k : pystr) (l : list (pystr * V)) : option V :=
  match l with
  | [] => None
  | (k', v) :: r => if streq k' k then Some v else assoc_get k r
  end.

Fixpoint assoc_del {V} (k : pystr) (l : list (pystr * V)) : list (pystr * V) :=
  match l with
  | [] => []
  | (k', v) :: r => if streq k' k then assoc_del k r else (k', v) :: assoc_del k r
  end.

Definition file_not_found (p : pystr) : exn :=
  mkexn (u "FileNotFoundError")
    (u "[Errno 2] No such file or directory: " ++ repr p).

(** [open(path, 'wb')]: creates or truncates. *)
Definition open_wb (w : world) (path : pystr) : M unit :=
  match open_error w path with
  | Some e => raise e
  | None => fun s => (inr tt, mkst (assoc_set path [] (files s)) (sheets s) (cnt s) (log s))
  end.

(** [apk_file.write(data)] *)
Definition write_bytes (path : pystr) (data : list Z) : M unit :=
  fun s =>
    let old := match assoc_get path (files s) with Some b => b | None => [] end in
    (inr tt, mkst (assoc_set path (old ++ data) (files s)) (sheets s) (cnt s) (log s)).

Fixpoint write_chunks (path : pystr) (chunks : list (list Z)) : M unit :=
  match chunks with
  | [] => ret tt
  | data :: rest => let* _ := write_bytes path data in write_chunks path rest
  end.

(** [pd.read_excel(path)] and [df.to_excel(path, index=False)]. *)
Definition read_excel (path : pystr) : M ledger :=
  fun s => match assoc_get path (sheets s) with
           | Some df => (inr df, s)
           | None => (inl (file_not_found path), s)
           end.

Definition to_excel (path : pystr) (df : ledger) : M unit :=
  fun s => (inr tt, mkst (files s) (assoc_set path df (sheets s)) (cnt s) (log s)).

Definition path_exists (path : pystr) : M bool :=
  fun s => (inr (match assoc_get path (sheets s) with
                 | Some _ => true
                 | None => match assoc_get path (files s) with Some _ => true | None => false end
                 end), s).

(** [response.raise_for_status()] of [requests]. *)
Definition raise_for_status (r : response) : exn + unit :=
  let sc := status_code r in
  if (400 <=? sc) && (sc <? 500) then
    inl (mkexn (u "HTTPError") (z_dec sc ++ u " Client Error: " ++ reason r ++
                                u " for url: " ++ resp_url r))
  else if (500 <=? sc) && (sc <? 600) then
    inl (mkexn (u "HTTPError") (z_dec sc ++ u " Server Error: " ++ reason r ++
                                u " for url: " ++ resp_url r))
  else inr tt.

(** ** [download_app]

    The body of the [try] block.  The progress bar only displays; both
    branches of [show_progress] write the same chunks, so the body does
    not depend on it. *)
Definition download_body (w : world) (app_name' url download_dir : pystr)
    : M (option pystr * pystr) :=
  let file_path := path_join download_dir (app_name' ++ u ".apk") in
  let* _ := emit (EvGet url) in
  let* response := lift (http_get w url) in
  let* _ := lift (raise_for_status response) in
  let* total_size := lift (match content_length response with
                           | None => inr 0
                           | Some v => py_int v
                           end) in
  let* _ := open_wb w file_path in
  let* _ := write_chunks file_path (body response) in
  let* _ := match body_error response with
            | Some e => raise e
            | None => ret tt
            end in
  ret (Some file_path, u "下载成功").

Definition download_app (w : world) (app_name' url download_dir : pystr)
    (show_progress : bool) : M (option pystr * pystr) :=
  try_except (download_body w app_name' url download_dir)
    (fun e => ret (None, u "下载失败: " ++ exn_str e)).

(** ** [install_app] *)
Definition adb_install_cmd (device_id apk_path : pystr) : list pystr :=
  [u "adb"; u "-s"; device_id; u "install"; apk_path].

(** [signal.Signals(n).name] on Linux. *)
Definition signal_name (n : Z) : option pystr :=
  match n with
  | 1 => Some (u "SIGHUP") | 2 => Some (u "SIGINT") | 3 => Some (u "SIGQUIT")
  | 4 => Some (u "SIGILL") | 5 => Some (u "SIGTRAP") | 6 => Some (u "SIGABRT")
  | 7 => Some (u "SIGBUS") | 8 => Some (u "SIGFPE") | 9 => Some (u "SIGKILL")
  | 10 => Some (u "SIGUSR1") | 11 => Some (u "SIGSEGV") | 12 => Some (u "SIGUSR2")
  | 13 => Some (u "SIGPIPE") | 14 => Some (u "SIGALRM") | 15 => Some (u "SIGTERM")
  | 16 => Some (u "SIGSTKFLT") | 17 => Some (u "SIGCHLD") | 18 => Some (u "SIGCONT")
  | 19 => Some (u "SIGSTOP") | 20 => Some (u "SIGTSTP") | 21 => Some (u "SIGTTIN")
  | 22 => Some (u "SIGTTOU") | 23 => Some (u "SIGURG") | 24 => Some (u "SIGXCPU")
  | 25 => Some (u "SIGXFSZ") | 26 => Some (u "SIGVTALRM") | 27 => Some (u "SIGPROF")
  | 28 => Some (u "SIGWINCH") | 29 => Some (u "SIGIO") | 30 => Some (u "SIGPWR")
  | 31 => Some (u "SIGSYS") | 34 => Some (u "SIGRTMIN") | 64 => Some (u "SIGRTMAX")
  | _ => None
  end.

(** [str(subprocess.CalledProcessError(returncode, cmd))] *)
Definition called_process_error_str (cmd : list pystr) (returncode : Z) : pystr :=
  if returncode <? 0 then
    match signal_name (- returncode) with
    | Some nm => u "Command '" ++ repr_list cmd ++ u "' died with <Signals." ++
                 nm ++ u ": " ++ z_dec (- returncode) ++ u ">."
    | None => u "Command '" ++ repr_list cmd ++ u "' died with unknown signal " ++
              z_dec (- returncode) ++ u "."
    end
  else u "Command '" ++ repr_list cmd ++ u "' returned non-zero exit status " ++
       z_dec returncode ++ u ".".

(** Only [subprocess.CalledProcessError] (a non-zero exit) is caught;
    an exception from starting the tool propagates. *)
Definition install_app (w : world) (device_id apk_path : pystr)
    (show_progress : bool) : M pystr :=
  let* _ := emit (EvInstall device_id apk_path) in
  match adb_install w device_id apk_path with
  | Exited returncode _ =>
      if returncode =? 0 then ret (u "安装成功")
      else ret (u "安装失败: " ++
                called_process_error_str (adb_install_cmd device_id apk_path) returncode)
  | RunError e => raise e
  end.

(** The file side of [update_excel_status]: read, transform, save. *)
Definition update_excel_status_file (excel_file app_name' url download_status
    install_status : pystr) : M unit :=
  let* df := read_excel excel_file in
  let* _ := to_excel excel_file
              (update_excel_status df app_name' url download_status install_status) in
  emit (EvUpsert app_name' url download_status install_status).

(** [os.listdir(d)]: the names of the entries directly under [d] (in the
    order of the store; Python's order is arbitrary). *)
Definition dir_prefix (d : pystr) : pystr := if endswith d [47] then d else d ++ [47].

Definition entry_in (d p : pystr) : option pystr :=
  let pre := dir_prefix d in
  if is_prefix pre p then
    let b := drop (length pre) p in
    if existsb (Z.eqb 47) b || streq b [] then None else Some b
  else None.

Definition listdir (d : pystr) : M (list pystr) :=
  fun s => (inr (omap (fun e => entry_in d e.1) (files s) ++
                 omap (fun e => entry_in d e.1) (sheets s)), s).

(** [os.remove(path)] *)
Definition os_remove (w : world) (path : pystr) : M unit :=
  match remove_error w path with
  | Some e => raise e
  | None =>
      fun s => match assoc_get path (files s), assoc_get path (sheets s) with
               | None, None => (inl (file_not_found path), s)
               | _, _ => (inr tt, mkst (assoc_del path (files s)) (assoc_del path (sheets s))
                                       (cnt s) (log s ++ [EvRemove path]))
               end
  end.

(** ** Running the per-entry tasks

    [parallel=False]: the tasks run one after the other and the first
    exception ends the loop.  [parallel=True]: a [ThreadPoolExecutor]
    runs every submitted task; [order] is the order in which the workers
    happen to run them (each task runs as one step), and the loop over
    [future.result()] in submission order re-raises the exception of the
    first failed task once all have finished. *)
Fixpoint run_sequential (tasks : list (M unit)) : M unit :=
  match tasks with
  | [] => ret tt
  | t :: rest => let* _ := t in run_sequential rest
  end.

Definition attempt {A} (m : M A) : M (exn + A) :=
  fun s => let '(r, s') := m s in (inr r, s').

Fixpoint run_in_order (tasks : list (M unit)) (order : list nat)
    : M (list (nat * (exn + unit))) :=
  match order with
  | [] => ret []
  | i :: rest =>
      match tasks !! i with
      | Some t => let* r := attempt t in
                  let* rs := run_in_order tasks rest in
                  ret ((i, r) :: rs)
      | None => run_in_order tasks rest
      end
  end.

Fixpoint result_of (j : nat) (rs : list (nat * (exn + unit))) : option (exn + unit) :=
  match rs with
  | [] => None
  | (i, r) :: rest => if Nat.eqb i j then Some r else result_of j rest
  end.

Fixpoint collect_results (js : list nat) (rs : list (nat * (exn + unit))) : M unit :=
  match js with
  | [] => ret tt
  | j :: rest => match result_of j rs with
                 | Some (inl e) => raise e
                 | _ => collect_results rest rs
                 end
  end.

Definition thread_pool (tasks : list (M unit)) (order : list nat) : M unit :=
  let* rs := run_in_order tasks order in
  collect_results (seq 0 (length tasks)) rs.

Definition run_tasks (parallel : bool) (order : list nat) (tasks : list (M unit)) : M unit :=
  if parallel then thread_pool tasks order else run_sequential tasks.

Definition reset_counters : M unit := modify_cnt (fun _ => counters0).

Definition get_counters : M counters := fun s => (inr (cnt s), s).

(** The printed summaries. *)
Record download_report := mkdownload_report {
  rep_download_success : nat;
  rep_download_failure : nat;
  rep_total_downloads : nat
}.

Record install_report := mkinstall_report {
  rep_install_success : nat;
  rep_install_failure : nat;
  rep_total_installs : nat
}.

(** ** [download_and_install_apps] *)
Module DownloadAndInstall.

Definition process_app (w : world) (device_id download_dir excel_file : pystr)
    (r : row) : M unit :=
  let app_name' := app_name r in
  let url := link r in
  let* res := download_app w app_name' url download_dir true in
  let '(apk_path, download_status) := res in
  let* _ := modify_cnt (if contains download_status (u "成功")
                        then incr_download_success else incr_download_failure) in
  let* install_status :=
    match apk_path with
    | Some p =>
        if negb (streq p []) then
          let* s := install_app w device_id p true in
          let* _ := modify_cnt incr_total_installs in
          let* _ := modify_cnt (if contains s (u "成功")
                                then incr_install_success else incr_install_failure) in
          ret s
        else ret (u "未安装")
    | None => ret (u "未安装")
    end in
  update_excel_status_file excel_file app_name' url download_status install_status.

Definition download_and_install_apps (w : world) (device_id download_dir : pystr)
    (parallel : bool) (order : list nat)
    : M (option (download_report * install_report)) :=
  let excel_file := path_join download_dir (u "download.xlsx") in
  let* ex := path_exists excel_file in
  if negb ex then ret None else
  let* df := read_excel excel_file in
  let total_downloads := length df in
  let* _ := reset_counters in
  let* _ := run_tasks parallel order
              (List.map (process_app w device_id download_dir excel_file) df) in
  let* c := get_counters in
  ret (Some (mkdownload_report (download_success c) (download_failure c) total_downloads,
             mkinstall_report (install_success c) (install_failure c) (total_installs c))).

End DownloadAndInstall.

(** ** [install_local_apks] *)
Module InstallLocal.

Definition index_error : exn := mkexn (u "IndexError") (u "index 0 is out of bounds for axis 0 with size 0").

(** [df[df['应用名'] == app_name]['下载链接'].values[0] if app_name in
    df['应用名'].values else "本地安装"] *)
Definition lookup_url (df : ledger) (app_name' : pystr) : M pystr :=
  if existsb (fun n => streq n app_name') (names df) then
    match rows_named app_name' df with
    | r :: _ => ret (link r)
    | [] => raise index_error
    end
  else ret (u "本地安装").

Definition install_apk (w : world) (device_id apk_dir excel_file : pystr)
    (df : ledger) (apk_file : pystr) : M unit :=
  let apk_path := path_join apk_dir apk_file in
  let* install_status := install_app w device_id apk_path true in
  let app_name' := splitext_root apk_file in
  let* url := lookup_url df app_name' in
  let* _ := update_excel_status_file excel_file app_name' url (u "已下载") install_status in
  modify_cnt (if contains install_status (u "成功")
              then incr_install_success else incr_install_failure).

Definition install_local_apks (w : world) (device_id apk_dir excel_file : pystr)
    (parallel : bool) (order : list nat) : M (option install_report) :=
  let* ex := path_exists excel_file in
  let* _ := if ex then ret tt else to_excel excel_file [] in
  let* entries := listdir apk_dir in
  let apk_files := filter (fun f => endswith f (u ".apk") = true) entries in
  match apk_files with
  | [] => ret None
  | _ =>
      let* df := read_excel excel_file in
      let total_installs' := length apk_files in
      let* _ := reset_counters in
      let* _ := run_tasks parallel order
                  (List.map (install_apk w device_id apk_dir excel_file df) apk_files) in
      let* c := get_counters in
      ret (Some (mkinstall_report (install_success c) (install_failure c) total_installs'))
  end.

End InstallLocal.

(** ** [download_apps] *)
Module DownloadOnly.

Definition process_app (w : world) (download_dir excel_file : pystr) (r : row) : M unit :=
  let app_name' := app_name r in
  let url := link r in
  let* res := download_app w app_name' url download_dir true in
  let '(apk_path, download_status) := res in
  let* _ := modify_cnt (if contains download_status (u "成功")
                        then incr_download_success else incr_download_failure) in
  update_excel_status_file excel_file app_name' url download_status (u "未安装").

(** [device_id] is a parameter of [download_apps]; [main] passes [None]. *)
Definition download_apps (w : world) (device_id : option pystr) (download_dir : pystr)
    (parallel : bool) (order : list nat) : M (option download_report) :=
  let excel_file := path_join download_dir (u "download.xlsx") in
  let* ex := path_exists excel_file in
  if negb ex then ret None else
  let* df := read_excel excel_file in
  let total_downloads := length df in
  let* _ := reset_counters in
  let* _ := run_tasks parallel order (List.map (process_app w download_dir excel_file) df) in
  let* c := get_counters in
  ret (Some (mkdownload_report (download_success c) (download_failure c) total_downloads)).

End DownloadOnly.

(** ** [delete_all_apks] *)
Fixpoint remove_each (w : world) (current_dir : pystr) (apks : list pystr) : M unit :=
  match apks with
  | [] => ret tt
  | apk :: rest =>
      let* _ := try_except (os_remove w (path_join current_dir apk)) (fun _ => ret tt) in
      remove_each w current_dir rest
  end.

(** [confirmation_line] is what [input()] returns. *)
Definition delete_all_apks (w : world) (current_dir confirmation_line : pystr) : M unit :=
  let* entries := listdir current_dir in
  let apk_files := filter (fun f => endswith f (u ".apk") = true) entries in
  match apk_files with
  | [] => ret tt
  | _ =>
      let confirmation := lower (strip confirmation_line) in
      if streq confirmation (u "y") then remove_each w current_dir apk_files
      else ret tt
  end.

Definition st_empty : st := mkst [] [] counters0 [].

(** A small concrete world: one reachable package, one unreachable, a
    ledger with both rows. *)
Definition demo_world : world :=
  mkworld
    (fun url => if streq url (u "http://example.com/a.apk")
                then inr (mkresponse 200 (u "OK") url (Some (u "3")) [[1; 2; 3]] None)
                else inl (mkexn (u "ConnectionError") (u "connection refused")))
    (fun _ => None)
    (fun _ p => if streq p (u "/w/a.apk") then Exited 0 [] else Exited 1 (u "Failure"))
    (fun _ => None).

Definition demo_ledger : ledger :=
  [mkrow (u "a") (u "http://example.com/a.apk") [] [];
   mkrow (u "b") (u "http://example.com/b.apk") [] []].

Definition demo_state : st := mkst [] [(u "/w/download.xlsx", demo_ledger)] counters0 [].

(** The link [install_apk] records for [app_name']: that of the first row
    of the ledger snapshot with this name, else the marker. *)
Definition expected_url (df : ledger) (app_name' : pystr) : pystr :=
  match rows_named app_name' df with
  | r :: _ => link r
  | [] => u "本地安装"
  end.

(** [path] is neither a file nor a spreadsheet of the directory tree. *)
Definition absent (path : pystr) (s : st) : Prop :=
  assoc_get path (files s) = None /\ assoc_get path (sheets s) = None.

(** Requests in the event log. *)
Definition is_get (ev : event) : bool :=
  match ev with EvGet _ => true | _ => false end.

(** A task that, however it ends, logs the events [g] among those
    selected by [p]. *)
Definition task_log (p : event -> bool) (t : M unit) (g : list event) : Prop :=
  forall s r s', t s = (r, s') ->
    exists seg, log s' = log s ++ seg /\ filter (fun ev => p ev = true) seg = g.

(** No request is logged between two states. *)
Definition no_get_after (s s' : st) : Prop :=
  exists seg, log s' = log s ++ seg /\ Forall (fun ev => is_get ev = false) seg.

(** A task that, when it completes, adds one to [f] of the counters. *)
Definition task_incr (f : counters -> nat) (t : M unit) : Prop :=
  forall s s', t s = (inr tt, s') -> f (cnt s') = S (f (cnt s)).

(** ** [main]

    The menu loop reads one line per iteration; [inputs] are the lines
    [input()] returns, and running out of them raises [EOFError].  The
    device query [adb devices] gives [adb_out] each time; [sched i] is the
    order the pool runs the tasks of the [i]-th iteration in.  Option [4]
    reads a confirmation line only when the directory holds [.apk] files
    (the listing is repeated inside [delete_all_apks], which does not
    change the state).  An exception ends the loop. *)
Definition eof_error : exn := mkexn (u "EOFError") (u "EOF when reading a line").

Fixpoint main_loop (w : world) (adb_out : option pystr) (current_dir : pystr)
    (sched : nat -> list nat) (i : nat) (inputs : list pystr) : M unit :=
  match inputs with
  | [] => raise eof_error
  | line :: rest =>
      let choice := lower (strip line) in
      if streq choice (u "q") then ret tt else
      let excel_file := path_join current_dir (u "download.xlsx") in
      if streq choice (u "1") then
        let* _ := DownloadOnly.download_apps w None current_dir true (sched i) in
        main_loop w adb_out current_dir sched (S i) rest
      else if streq choice (u "2") then
        match check_device_online adb_out with
        | Some device_id =>
            if negb (streq device_id []) then
              let* _ := InstallLocal.install_local_apks w device_id current_dir excel_file
                          true (sched i) in
              main_loop w adb_out current_dir sched (S i) rest
            else main_loop w adb_out current_dir sched (S i) rest
        | None => main_loop w adb_out current_dir sched (S i) rest
        end
      else if streq choice (u "3") then
        match check_device_online adb_out with
        | Some device_id =>
            if negb (streq device_id []) then
              let* _ := DownloadAndInstall.download_and_install_apps w device_id current_dir
                          true (sched i) in
              main_loop w adb_out current_dir sched (S i) rest
            else main_loop w adb_out current_dir sched (S i) rest
        | None => main_loop w adb_out current_dir sched (S i) rest
        end
      else if streq choice (u "4") then
        let* entries := listdir current_dir in
        match filter (fun f => endswith f (u ".apk") = true) entries with
        | [] =>
            let* _ := delete_all_apks w current_dir [] in
            main_loop w adb_out current_dir sched (S i) rest
        | _ :: _ =>
            match rest with
            | confirmation_line :: rest' =>
                let* _ := delete_all_apks w current_dir confirmation_line in
                main_loop w adb_out current_dir sched (S i) rest'
            | [] => raise eof_error
            end
        end
      else main_loop w adb_out current_dir sched (S i) rest
  end.

Definition main (w : world) (adb_out : option pystr) (current_dir : pystr)
    (sched : nat -> list nat) (inputs : list pystr) : M unit :=
  main_loop w adb_out current_dir sched 0 inputs.

(** ** The threads of the pool

    With [parallel=True] the tasks run in the five worker threads of a
    [ThreadPoolExecutor], and the threads interleave.  A task in progress
    is a frame: its program point and its local variables.  One step runs
    a task from one program point to the next, atomically, and other
    threads may run between two steps.  The program points split every
    [x += 1] on a [nonlocal] counter into the load of [x] and the store of
    the sum (another thread can run between the two), and
    [update_excel_status] into the read of the workbook and its write.  A
    call of [download_app] or of [install_app] is one step.

    The sequential loop ([parallel=False]) runs the tasks of the previous
    sections one after the other. *)
Module Threads.

Inductive counter :=
| DownloadSuccess | DownloadFailure | TotalInstalls | InstallSuccess | InstallFailure.

#[global] Instance counter_eq_dec : EqDecision counter.
Proof. solve_decision. Defined.

Definition counter_get (k : counter) (c : counters) : nat :=
  match k with
  | DownloadSuccess => download_success c
  | DownloadFailure => download_failure c
  | TotalInstalls => total_installs c
  | InstallSuccess => install_success c
  | InstallFailure => install_failure c
  end.

Definition counter_set (k : counter) (v : nat) (c : counters) : counters :=
  match k with
  | DownloadSuccess =>
      mkcounters v (download_failure c) (total_installs c) (install_success c) (install_failure c)
  | DownloadFailure =>
      mkcounters (download_success c) v (total_installs c) (install_success c) (install_failure c)
  | TotalInstalls =>
      mkcounters (download_success c) (download_failure c) v (install_success c) (install_failure c)
  | InstallSuccess =>
      mkcounters (download_success c) (download_failure c) (total_installs c) v (install_failure c)
  | InstallFailure =>
      mkcounters (download_success c) (download_failure c) (total_installs c) (install_success c) v
  end.

(** The counter that [if "成功" in status: ... += 1 else: ... += 1] adds to. *)
Definition download_counter (download_status : pystr) : counter :=
  if contains download_status (u "成功") then DownloadSuccess else DownloadFailure.

Definition install_counter (install_status : pystr) : counter :=
  if contains install_status (u "成功") then InstallSuccess else InstallFailure.

Inductive pc :=
| Enter                         (* not started *)
| LoadDownload | StoreDownload  (* [download_success += 1] or [download_failure += 1] *)
| Install                       (* [install_app(...)] *)
| LoadTotal | StoreTotal        (* [total_installs += 1] *)
| LookupUrl                     (* the link [install_apk] records *)
| ReadLedger                    (* [pd.read_excel] in [update_excel_status] *)
| WriteLedger                   (* [df.to_excel] in [update_excel_status] *)
| LoadInstall | StoreInstall    (* [install_success += 1] or [install_failure += 1] *)
| Returned.

Record frame := mkframe {
  f_pc : pc;
  f_apk_path : option pystr;
  f_download_status : pystr;
  f_install_status : pystr;
  f_url : pystr;
  f_loaded : nat;          (* the value loaded by a pending [x += 1] *)
  f_df : ledger;           (* the workbook read by [update_excel_status] *)
  f_result : exn + unit    (* how the task ended *)
}.

Definition frame0 : frame := mkframe Enter None [] (u "未安装") [] 0 [] (inr tt).

Definition goto (p : pc) (f : frame) : frame :=
  mkframe p (f_apk_path f) (f_download_status f) (f_install_status f) (f_url f)
    (f_loaded f) (f_df f) (f_result f).

Definition set_download (p : pc) (apk_path : option pystr) (download_status : pystr)
    (f : frame) : frame :=
  mkframe p apk_path download_status (f_install_status f) (f_url f)
    (f_loaded f) (f_df f) (f_result f).

Definition set_install_status (p : pc) (install_status : pystr) (f : frame) : frame :=
  mkframe p (f_apk_path f) (f_download_status f) install_status (f_url f)
    (f_loaded f) (f_df f) (f_result f).

Definition set_url (p : pc) (url : pystr) (f : frame) : frame :=
  mkframe p (f_apk_path f) (f_download_status f) (f_install_status f) url
    (f_loaded f) (f_df f) (f_result f).

Definition set_loaded (p : pc) (v : nat) (f : frame) : frame :=
  mkframe p (f_apk_path f) (f_download_status f) (f_install_status f) (f_url f)
    v (f_df f) (f_result f).

Definition set_df (p : pc) (df : ledger) (f : frame) : frame :=
  mkframe p (f_apk_path f) (f_download_status f) (f_install_status f) (f_url f)
    (f_loaded f) df (f_result f).

Definition set_result (r : exn + unit) (f : frame) : frame :=
  mkframe Returned (f_apk_path f) (f_download_status f) (f_install_status f) (f_url f)
    (f_loaded f) (f_df f) r.

(** The code of a task from its current program point to the next. *)
Definition task := frame -> M frame.

(** The two halves of [x += 1]. *)
Definition load (k : counter) (next : pc) (f : frame) : M frame :=
  let* c := get_counters in ret (set_loaded next (counter_get k c) f).

Definition store (k : counter) (f : frame) : M unit :=
  modify_cnt (counter_set k (S (f_loaded f))).

(** [process_app] of [download_and_install_apps]. *)
Definition process_app (w : world) (device_id download_dir excel_file : pystr) (r : row)
    : task := fun f =>
  let app_name' := app_name r in
  let url := link r in
  match f_pc f with
  | Enter =>
      let* res := download_app w app_name' url download_dir true in
      let '(apk_path, download_status) := res in
      ret (set_download LoadDownload apk_path download_status f)
  | LoadDownload => load (download_counter (f_download_status f)) StoreDownload f
  | StoreDownload =>
      let* _ := store (download_counter (f_download_status f)) f in
      match f_apk_path f with
      | Some p => if negb (streq p []) then ret (goto Install f) else ret (goto ReadLedger f)
      | None => ret (goto ReadLedger f)
      end
  | Install =>
      match f_apk_path f with
      | Some p =>
          let* s := install_app w device_id p true in
          ret (set_install_status LoadTotal s f)
      | None => ret (goto ReadLedger f)   (* not reached *)
      end
  | LoadTotal => load TotalInstalls StoreTotal f
  | StoreTotal => let* _ := store TotalInstalls f in ret (goto LoadInstall f)
  | LoadInstall => load (install_counter (f_install_status f)) StoreInstall f
  | StoreInstall =>
      let* _ := store (install_counter (f_install_status f)) f in ret (goto ReadLedger f)
  | ReadLedger => let* df := read_excel excel_file in ret (set_df WriteLedger df f)
  | WriteLedger =>
      let* _ := to_excel excel_file (update_excel_status (f_df f) app_name' url
                  (f_download_status f) (f_install_status f)) in
      let* _ := emit (EvUpsert app_name' url (f_download_status f) (f_install_status f)) in
      ret (set_result (inr tt) f)
  | LookupUrl | Returned => ret f
  end.

(** [process_app] of [download_apps]. *)
Definition download_only_app (w : world) (download_dir excel_file : pystr) (r : row)
    : task := fun f =>
  let app_name' := app_name r in
  let url := link r in
  match f_pc f with
  | Enter =>
      let* res := download_app w app_name' url download_dir true in
      let '(apk_path, download_status) := res in
      ret (set_download LoadDownload apk_path download_status f)
  | LoadDownload => load (download_counter (f_download_status f)) StoreDownload f
  | StoreDownload =>
      let* _ := store (download_counter (f_download_status f)) f in ret (goto ReadLedger f)
  | ReadLedger => let* df := read_excel excel_file in ret (set_df WriteLedger df f)
  | WriteLedger =>
      let* _ := to_excel excel_file (update_excel_status (f_df f) app_name' url
                  (f_download_status f) (u "未安装")) in
      let* _ := emit (EvUpsert app_name' url (f_download_status f) (u "未安装")) in
      ret (set_result (inr tt) f)
  | _ => ret f
  end.

(** [install_apk] of [install_local_apks]. *)
Definition install_apk (w : world) (device_id apk_dir excel_file : pystr) (df : ledger)
    (apk_file : pystr) : task := fun f =>
  let apk_path := path_join apk_dir apk_file in
  let app_name' := splitext_root apk_file in
  match f_pc f with
  | Enter =>
      let* s := install_app w device_id apk_path true in
      ret (set_install_status LookupUrl s f)
  | LookupUrl =>
      let* url := InstallLocal.lookup_url df app_name' in ret (set_url ReadLedger url f)
  | ReadLedger => let* df' := read_excel excel_file in ret (set_df WriteLedger df' f)
  | WriteLedger =>
      let* _ := to_excel excel_file (update_excel_status (f_df f) app_name' (f_url f)
                  (u "已下载") (f_install_status f)) in
      let* _ := emit (EvUpsert app_name' (f_url f) (u "已下载") (f_install_status f)) in
      ret (goto LoadInstall f)
  | LoadInstall => load (install_counter (f_install_status f)) StoreInstall f
  | StoreInstall =>
      let* _ := store (install_counter (f_install_status f)) f in ret (set_result (inr tt) f)
  | _ => ret f
  end.

(** One step of a task; an exception ends the task. *)
Definition step (t : task) (f : frame) (s : st) : frame * st :=
  match f_pc f with
  | Returned => (f, s)
  | _ => match t f s with
         | (inr f', s') => (f', s')
         | (inl e, s') => (set_result (inl e) f, s')
         end
  end.

Definition max_workers : nat := 5.

Definition running (f : frame) : bool :=
  match f_pc f with Returned => false | _ => true end.

(** The tasks taken by a worker (the first [started] ones, in submission
    order) that have not returned. *)
Definition busy (frames : list frame) (started : nat) : nat :=
  length (filter (fun f => running f = true) (take started frames)).

(** One scheduling decision: task [i] runs one step if a worker runs it,
    or if it is the next task of the queue and a worker is free. *)
Definition pool_step (tasks : list task) (frames : list frame) (started i : nat) (s : st)
    : (list frame * nat) * st :=
  match tasks !! i, frames !! i with
  | Some t, Some f =>
      if Nat.ltb i started then
        let '(f', s') := step t f s in ((<[i := f']> frames, started), s')
      else if Nat.eqb i started && Nat.ltb (busy frames started) max_workers then
        let '(f', s') := step t f s in ((<[i := f']> frames, S started), s')
      else ((frames, started), s)
  | _, _ => ((frames, started), s)
  end.

Fixpoint run_schedule (tasks : list task) (frames : list frame) (started : nat)
    (sched : list nat) (s : st) : list frame * st :=
  match sched with
  | [] => (frames, s)
  | i :: rest =>
      let '((frames', started'), s') := pool_step tasks frames started i s in
      run_schedule tasks frames' started' rest s'
  end.

(** No task passes more than [task_steps] program points. *)
Definition task_steps : nat := 12.

(** After the interleaving [sched], what is left of the tasks runs to the
    end, task after task in submission order. *)
Definition drain (n : nat) : list nat :=
  concat (List.map (fun i => repeat i task_steps) (seq 0 n)).

Fixpoint first_error (frames : list frame) : option exn :=
  match frames with
  | [] => None
  | f :: rest => match f_result f with inl e => Some e | inr _ => first_error rest end
  end.

(** The [with] block: every task runs to its end, then [future.result()]
    in submission order re-raises the first exception. *)
Definition thread_pool (tasks : list task) (sched : list nat) : M unit :=
  fun s =>
    let '(frames, s') := run_schedule tasks (List.map (fun _ => frame0) tasks) 0
                           (sched ++ drain (length tasks)) s in
    match first_error frames with
    | Some e => (inl e, s')
    | None => (inr tt, s')
    end.

Definition download_and_install_apps (w : world) (device_id download_dir : pystr)
    (parallel : bool) (sched : list nat)
    : M (option (download_report * install_report)) :=
  let excel_file := path_join download_dir (u "download.xlsx") in
  let* ex := path_exists excel_file in
  if negb ex then ret None else
  let* df := read_excel excel_file in
  let total_downloads := length df in
  let* _ := reset_counters in
  let* _ := if parallel
            then thread_pool (List.map (process_app w device_id download_dir excel_file) df) sched
            else run_sequential
                   (List.map (DownloadAndInstall.process_app w device_id download_dir excel_file) df) in
  let* c := get_counters in
  ret (Some (mkdownload_report (download_success c) (download_failure c) total_downloads,
             mkinstall_report (install_success c) (install_failure c) (total_installs c))).

Definition download_apps (w : world) (device_id : option pystr) (download_dir : pystr)
    (parallel : bool) (sched : list nat) : M (option download_report) :=
  let excel_file := path_join download_dir (u "download.xlsx") in
  let* ex := path_exists excel_file in
  if negb ex then ret None else
  let* df := read_excel excel_file in
  let total_downloads := length df in
  let* _ := reset_counters in
  let* _ := if parallel
            then thread_pool (List.map (download_only_app w download_dir excel_file) df) sched
            else run_sequential (List.map (DownloadOnly.process_app w download_dir excel_file) df) in
  let* c := get_counters in
  ret (Some (mkdownload_report (download_success c) (download_failure c) total_downloads)).

Definition install_local_apks (w : world) (device_id apk_dir excel_file : pystr)
    (parallel : bool) (sched : list nat) : M (option install_report) :=
  let* ex := path_exists excel_file in
  let* _ := if ex then ret tt else to_excel excel_file [] in
  let* entries := listdir apk_dir in
  let apk_files := filter (fun f => endswith f (u ".apk") = true) entries in
  match apk_files with
  | [] => ret None
  | _ =>
      let* df := read_excel excel_file in
      let total_installs' := length apk_files in
      let* _ := reset_counters in
      let* _ := if parallel
                then thread_pool
                       (List.map (install_apk w device_id apk_dir excel_file df) apk_files) sched
                else run_sequential
                       (List.map (InstallLocal.install_apk w device_id apk_dir excel_file df)
                          apk_files) in
      let* c := get_counters in
      ret (Some (mkinstall_report (install_success c) (install_failure c) total_installs'))
  end.

(** The store a frame is about to do. *)
Definition store_target (f : frame) : option counter :=
  match f_pc f with
  | StoreDownload => Some (download_counter (f_download_status f))
  | StoreTotal => Some TotalInstalls
  | StoreInstall => Some (install_counter (f_install_status f))
  | _ => None
  end.

(** Whether a frame is past its store to [k], for each kind of task (a
    task ended by an exception counts as past it). *)
Definition past_download (f : frame) : bool :=
  match f_pc f with Enter | LoadDownload | StoreDownload => false | _ => true end.

Definition past_total (f : frame) : bool :=
  match f_pc f with
  | LoadInstall | StoreInstall | ReadLedger | WriteLedger | Returned => true
  | _ => false
  end.

Definition past_install (f : frame) : bool :=
  match f_pc f with ReadLedger | WriteLedger | Returned => true | _ => false end.

Definition done_process_app (k : counter) (f : frame) : bool :=
  match k with
  | DownloadSuccess | DownloadFailure =>
      past_download f && bool_decide (download_counter (f_download_status f) = k)
  | TotalInstalls => past_total f
  | InstallSuccess | InstallFailure =>
      past_install f && bool_decide (install_counter (f_install_status f) = k)
  end.

Definition done_download_only (k : counter) (f : frame) : bool :=
  match k with
  | DownloadSuccess | DownloadFailure =>
      past_download f && bool_decide (download_counter (f_download_status f) = k)
  | _ => false
  end.

Definition done_install_apk (k : counter) (f : frame) : bool :=
  match k with
  | InstallSuccess | InstallFailure =>
      negb (running f) && bool_decide (install_counter (f_install_status f) = k)
  | _ => false
  end.

(** The number of frames past their store to [k]. *)
Definition written (done : counter -> frame -> bool) (k : counter) (frames : list frame) : nat :=
  length (filter (fun f => done k f = true) frames).

(** The counter [k] is at most the number of frames past their store to
    it, and so is every value loaded by a pending store to [k]. *)
Definition counter_inv (done : counter -> frame -> bool) (k : counter)
    (frames : list frame) (s : st) : Prop :=
  (counter_get k (cnt s) <= written done k frames)%nat /\
  forall j g, frames !! j = Some g -> store_target g = Some k ->
    (f_loaded g <= written done k frames)%nat.

(** What a step of a task does to the counters: the frame never goes back
    over a store; a counter changes only through the store of the frame,
    to one more than the value it loaded; a store is pending only with a
    value loaded at the step before (or is the one the frame had). *)
Definition step_ok (done : counter -> frame -> bool) (t : task) : Prop :=
  forall k f s,
    (done k f = true -> done k (step t f s).1 = true) /\
    (counter_get k (cnt (step t f s).2) = counter_get k (cnt s) \/
     (store_target f = Some k /\ counter_get k (cnt (step t f s).2) = S (f_loaded f) /\
      done k f = false /\ done k (step t f s).1 = true)) /\
    (store_target (step t f s).1 = Some k ->
     (f_loaded (step t f s).1 <= counter_get k (cnt s))%nat \/
     (store_target f = Some k /\ f_loaded (step t f s).1 = f_loaded f)).

End Threads.



(** Two packages in [/w]: [a.apk] installs, [b.apk] does not. *)
Definition two_apks : st :=
  mkst [(u "/w/a.apk", [1; 2; 3]); (u "/w/b.apk", [4])]
       [(u "/w/download.xlsx", demo_ledger)] counters0 [].

(** Two workers taking turns, one program point each. *)
Definition race_sched : list nat := [0; 1; 0; 1; 0; 1; 0; 1; 0; 1; 0; 1]%nat.

(* END OF DEFINITIONS *)

(** * Properties *)

Section LedgerFacts.

Lemma existsb_names (df : ledger) (n : pystr) :
  existsb (fun m => streq m n) (names df) = true <-> exists r, r ∈ df /\ app_name r = n.
Proof.
  unfold names, streq. rewrite existsb_exists. split.
  - intros (m & Hin & Hm). apply bool_decide_eq_true in Hm. subst m.
    apply in_map_iff in Hin as (r & <- & Hr). exists r. split; [|done].
    by apply list_elem_of_In.
  - intros (r & Hr & <-). exists (app_name r). split.
    + apply in_map. by apply list_elem_of_In.
    + by apply bool_decide_eq_true.
Qed.

Lemma ex_name_dec (df : ledger) (n : pystr) :
  {exists r, r ∈ df /\ app_name r = n} + {~ exists r, r ∈ df /\ app_name r = n}.
Proof.
  destruct (existsb (fun m => streq m n) (names df)) eqn:E.
  - left. by apply existsb_names.
  - right. intros H. apply existsb_names in H. congruence.
Defined.

Lemma filter_insert_same (P : row -> Prop) `{!forall x, Decision (P x)}
    (l : ledger) i y x :
  l !! i = Some y -> (P x <-> P y) ->
  filter P (<[i:=x]> l) = filter P (take i l) ++ filter P [x] ++ filter P (drop (S i) l)
  /\ filter P l = filter P (take i l) ++ filter P [y] ++ filter P (drop (S i) l).
Proof.
  intros Hi Hxy. split.
  - rewrite insert_take_drop by (eapply lookup_lt_Some; eauto).
    rewrite filter_app; f_equal; by rewrite <- filter_app.
  - rewrite <- (take_drop_middle l i y Hi) at 1.
    rewrite filter_app; f_equal; by rewrite <- filter_app.
Qed.

(** The row written in place by the update branch. *)
Definition updated_row (r : row) (ds is : pystr) : row :=
  {| app_name := app_name r; link := link r; dl_status := ds; inst_status := is |}.

Lemma update_found (df : ledger) (n url ds is : pystr) :
  (exists r, r ∈ df /\ app_name r = n) ->
  exists i r, list_find (fun r => app_name r = n) df = Some (i, r) /\
    df !! i = Some r /\ app_name r = n /\
    (forall j y, df !! j = Some y -> (j < i)%nat -> app_name y <> n) /\
    update_excel_status df n url ds is = <[i := updated_row r ds is]> df.
Proof.
  intros Hex. pose proof Hex as (r0 & Hr0 & Hn0).
  destruct (list_find_elem_of (fun r => app_name r = n) df r0 Hr0 Hn0)
    as [[i r] Hf].
  pose proof Hf as Hf'. apply list_find_Some in Hf' as (Hi & Hn & Hbefore).
  exists i, r. repeat split; try done.
  unfold update_excel_status. apply existsb_names in Hex. rewrite Hex, Hf. done.
Qed.

Lemma update_not_found (df : ledger) n (url ds is : pystr) :
  ~ (exists r, r ∈ df /\ app_name r = n) ->
  update_excel_status df n url ds is = df ++ [mkrow n url ds is].
Proof.
  intros Hno. unfold update_excel_status.
  destruct (existsb _ _) eqn:E; [|done].
  exfalso. apply Hno. by apply existsb_names.
Qed.

Lemma rows_named_nil (df : ledger) n :
  rows_named n df = [] <-> ~ (exists r, r ∈ df /\ app_name r = n).
Proof.
  unfold rows_named. induction df as [|r0 df IH]; simpl.
  - split; [intros _ (r & Hr & _); by apply not_elem_of_nil in Hr|done].
  - rewrite filter_cons. destruct (decide (app_name r0 = n)) as [Hn|Hn].
    + split; [done|]. intros H. exfalso. apply H. exists r0. split; [left|done].
    + rewrite IH. split.
      * intros H (r & Hr & Hrn). apply elem_of_cons in Hr as [->|Hr]; [done|].
        apply H. eauto.
      * intros H (r & Hr & Hrn). apply H. exists r. split; [by right|done].
Qed.

Lemma rows_named_elem (df : ledger) n r :
  rows_named n df = [r] -> r ∈ df /\ app_name r = n.
Proof.
  unfold rows_named. intros H.
  assert (Hr : r ∈ filter (fun r => app_name r = n) df) by (rewrite H; left).
  by apply list_elem_of_filter in Hr as [? ?].
Qed.

Lemma rows_named_update_one (df : ledger) n r (url ds is : pystr) :
  rows_named n df = [r] ->
  rows_named n (update_excel_status df n url ds is) = [updated_row r ds is].
Proof.
  intros H. pose proof (rows_named_elem _ _ _ H) as [Hr Hn].
  destruct (update_found df n url ds is) as (i & r' & _ & Hi & Hn' & _ & ->);
    [eauto|].
  unfold rows_named in *.
  destruct (filter_insert_same (fun r => app_name r = n) df i r'
              (updated_row r' ds is) Hi) as [-> Hdf]; [simpl; tauto|].
  rewrite H in Hdf. rewrite filter_cons_True in Hdf by done.
  rewrite filter_nil in Hdf.
  destruct (filter _ (take i df)) eqn:E1; [|destruct l; discriminate].
  simpl in Hdf. injection Hdf as <- E2.
  rewrite <- E2. rewrite filter_cons_True by (simpl; done). done.
Qed.

Lemma rows_named_update_none (df : ledger) n (url ds is : pystr) :
  rows_named n df = [] ->
  rows_named n (update_excel_status df n url ds is) = [mkrow n url ds is].
Proof.
  intros H. pose proof H as Hno. apply rows_named_nil in Hno.
  rewrite update_not_found by done. unfold rows_named in *.
  rewrite filter_app, H, filter_cons_True by done. done.
Qed.

Lemma rows_named_update_other (df : ledger) n m (url ds is : pystr) :
  n <> m ->
  rows_named m (update_excel_status df n url ds is) = rows_named m df.
Proof.
  intros Hnm. unfold rows_named.
  destruct (ex_name_dec df n) as [Hex|Hno].
  - destruct (update_found df n url ds is Hex)
      as (i & r & _ & Hi & Hn & _ & ->).
    destruct (filter_insert_same (fun r => app_name r = m) df i r
                (updated_row r ds is) Hi) as [-> ->]; [simpl; tauto|].
    rewrite !filter_cons_False by (simpl; congruence). done.
  - rewrite update_not_found by done.
    rewrite filter_app, filter_cons_False by (simpl; congruence).
    by rewrite filter_nil, app_nil_r.
Qed.

End LedgerFacts.

Lemma rows_named_update_self_le1 (df : ledger) (n url ds is : pystr) :
  (length (rows_named n df) <= 1)%nat ->
  exists r, rows_named n (update_excel_status df n url ds is) = [r] /\
    dl_status r = ds /\ inst_status r = is.
Proof.
  intros Hle. destruct (rows_named n df) as [|r [|r' l]] eqn:E; simpl in Hle.
  - rewrite rows_named_update_none by done. by eexists.
  - rewrite (rows_named_update_one _ _ r) by done. by eexists.
  - lia.
Qed.

Lemma filter_take_none (df : ledger) (n : pystr) i :
  (forall j y, df !! j = Some y -> (j < i)%nat -> app_name y <> n) ->
  filter (fun r => app_name r = n) (take i df) = [].
Proof.
  intros Hb. destruct (filter _ (take i df)) as [|y l] eqn:E; [done|].
  assert (Hy : y ∈ filter (fun r => app_name r = n) (take i df)) by (rewrite E; left).
  apply list_elem_of_filter in Hy as [Hn Hy].
  apply list_elem_of_lookup in Hy as [j Hj].
  apply lookup_take_Some in Hj as [Hj Hji].
  exfalso. exact (Hb j y Hj Hji Hn).
Qed.

(** Whatever the number of rows with the name, an upsert rewrites the
    first of them and leaves the others as they are. *)
Lemma rows_named_update_first (df : ledger) (n url ds is : pystr) r rest :
  rows_named n df = r :: rest ->
  rows_named n (update_excel_status df n url ds is) = updated_row r ds is :: rest.
Proof.
  intros H.
  assert (Hex : exists r0, r0 ∈ df /\ app_name r0 = n).
  { assert (Hr : r ∈ rows_named n df) by (rewrite H; left).
    unfold rows_named in Hr. apply list_elem_of_filter in Hr as [Hn Hr]. eauto. }
  destruct (update_found df n url ds is Hex)
    as (i & r' & _ & Hi & Hn' & Hbefore & ->).
  unfold rows_named in *.
  destruct (filter_insert_same (fun r => app_name r = n) df i r'
              (updated_row r' ds is) Hi) as [-> Hdf]; [simpl; tauto|].
  rewrite (filter_take_none df n i Hbefore) in Hdf |- *.
  rewrite filter_cons_True in Hdf by done.
  rewrite filter_cons_True by (simpl; done).
  rewrite filter_nil in Hdf |- *. simpl in Hdf |- *.
  rewrite H in Hdf. injection Hdf as <- <-. reflexivity.
Qed.

(** ** C1: upsert by name *)

(** C1 (as stated: for every ledger).  A ledger the operator filled in
    with two rows for the name ["a"] still holds two rows for it after two
    upserts: only the first of them is ever updated. *)
Lemma update_excel_status_duplicate_rows :
  let df0 := [mkrow (u "a") (u "http://x/1") [] []; mkrow (u "a") (u "http://x/2") [] []] in
  length (rows_named (u "a")
    (update_excel_status
       (update_excel_status df0 (u "a") (u "http://x/1") (u "s1") (u "t1"))
       (u "a") (u "http://x/1") (u "s2") (u "t2"))) = 2%nat.
Proof. vm_compute. reflexivity. Qed.

(** C1 (amended).  For a ledger in which the name occurs at most once,
    two upserts with that name leave exactly one row for it, carrying the
    second call's download and install statuses; an upsert never creates a
    second row for a name that had at most one; every upsert either
    rewrites in place the first row with the name or, when there is none,
    appends one row; and when the ledger holds several rows with the name,
    an upsert rewrites only the first of them and the others remain, so
    after two upserts the first carries the second call's statuses. *)
Theorem update_excel_status_upsert_unique (df : ledger)
    (n url1 ds1 is1 url2 ds2 is2 : pystr) :
  ((length (rows_named n df) <= 1)%nat ->
   exists r, rows_named n (update_excel_status
                (update_excel_status df n url1 ds1 is1) n url2 ds2 is2) = [r] /\
             dl_status r = ds2 /\ inst_status r = is2) /\
  (forall (m url ds is : pystr), (length (rows_named m df) <= 1)%nat ->
     (length (rows_named m (update_excel_status df n url ds is)) <= 1)%nat) /\
  (forall (url ds is : pystr),
     (exists i r, df !! i = Some r /\ app_name r = n /\
        (forall j y, df !! j = Some y -> (j < i)%nat -> app_name y <> n) /\
        update_excel_status df n url ds is = <[i := updated_row r ds is]> df) \/
     ((~ exists r, r ∈ df /\ app_name r = n) /\
        update_excel_status df n url ds is = df ++ [mkrow n url ds is])) /\
  (forall r rest, rows_named n df = r :: rest ->
     (forall (url ds is : pystr),
        rows_named n (update_excel_status df n url ds is) = updated_row r ds is :: rest) /\
     rows_named n (update_excel_status
                (update_excel_status df n url1 ds1 is1) n url2 ds2 is2) =
       updated_row r ds2 is2 :: rest).
Proof.
  split; [|split; [|split]].
  - intros Hle.
    destruct (rows_named_update_self_le1 df n url1 ds1 is1 Hle) as (r1 & H1 & _).
    apply rows_named_update_self_le1. rewrite H1. simpl. lia.
  - intros m url ds is Hm. destruct (decide (n = m)) as [<-|Hnm].
    + destruct (rows_named_update_self_le1 df n url ds is Hm) as (r & -> & _).
      simpl. lia.
    + by rewrite rows_named_update_other.
  - intros url ds is. destruct (ex_name_dec df n) as [Hex|Hno].
    + left. destruct (update_found df n url ds is Hex)
        as (i & r & _ & Hi & Hn & Hbefore & Heq). eauto 10.
    + right. split; [done|]. by apply update_not_found.
  - intros r rest H. split.
    + intros url ds is. by apply rows_named_update_first.
    + rewrite (rows_named_update_first _ _ _ _ _ (updated_row r ds1 is1) rest)
        by (by apply rows_named_update_first).
      reflexivity.
Qed.

Lemma update_excel_status_upsert_unique_witness :
  let df1 := [mkrow (u "a") (u "http://x/1") [] []; mkrow (u "b") (u "http://x/2") [] []] in
  (length (rows_named (u "a") df1) <= 1)%nat /\
  exists r, rows_named (u "a") (update_excel_status
      (update_excel_status df1 (u "a") (u "u") (u "s1") (u "t1"))
      (u "a") (u "u") (u "s2") (u "t2")) = [r] /\
    dl_status r = u "s2" /\ inst_status r = u "t2".
Proof.
  intros df1. assert (H : (length (rows_named (u "a") df1) <= 1)%nat)
    by (vm_compute; lia).
  split; [exact H|].
  exact (proj1 (update_excel_status_upsert_unique df1 (u "a") (u "u") (u "s1")
                  (u "t1") (u "u") (u "s2") (u "t2")) H).
Defined.

(** ** C8: frame of the update branch *)

(** C8.  When the ledger has a row with the name, the upsert rewrites the
    download and install statuses of that row (the first one with the
    name) and nothing else: the row keeps its name and download link,
    the length is unchanged and every other row is untouched. *)
Theorem update_excel_status_frame (df : ledger) (n url ds is : pystr) :
  (exists r, r ∈ df /\ app_name r = n) ->
  exists i r, df !! i = Some r /\ app_name r = n /\
    length (update_excel_status df n url ds is) = length df /\
    update_excel_status df n url ds is !! i =
      Some (mkrow (app_name r) (link r) ds is) /\
    (forall j, j <> i -> update_excel_status df n url ds is !! j = df !! j).
Proof.
  intros Hex.
  destruct (update_found df n url ds is Hex) as (i & r & _ & Hi & Hn & _ & ->).
  exists i, r. repeat split; try done.
  - apply length_insert.
  - apply list_lookup_insert_eq. eapply lookup_lt_Some; eauto.
  - intros j Hj. by apply list_lookup_insert_ne.
Qed.

Lemma update_excel_status_frame_witness :
  let df1 := [mkrow (u "a") (u "http://x/1") [] []; mkrow (u "b") (u "http://x/2") [] []] in
  (exists r, r ∈ df1 /\ app_name r = u "b") /\
  exists i r, df1 !! i = Some r /\ app_name r = u "b" /\
    length (update_excel_status df1 (u "b") (u "v") (u "s") (u "t")) = length df1 /\
    update_excel_status df1 (u "b") (u "v") (u "s") (u "t") !! i =
      Some (mkrow (app_name r) (link r) (u "s") (u "t")) /\
    (forall j, j <> i -> update_excel_status df1 (u "b") (u "v") (u "s") (u "t") !! j = df1 !! j).
Proof.
  intros df1.
  assert (H : exists r, r ∈ df1 /\ app_name r = u "b").
  { exists (mkrow (u "b") (u "http://x/2") [] []). split; [right; left|reflexivity]. }
  split; [exact H|]. exact (update_excel_status_frame df1 (u "b") (u "v") (u "s") (u "t") H).
Defined.

(** ** C3: locating the device *)

Lemma split_go_not_nil (s cur : pystr) :
  cur <> [] \/ (exists c, In c s /\ is_space c = false) -> split_go cur s <> [].
Proof.
  revert cur. induction s as [|c r IH]; intros cur H; simpl.
  - destruct H as [H|(c & [] & _)]. destruct cur; [done|discriminate].
  - destruct (is_space c) eqn:Ec.
    + destruct cur as [|c0 cur'].
      * apply IH. destruct H as [H|(c' & [<-|Hin] & Hsp)]; [done|congruence|eauto].
      * discriminate.
    + apply IH. left. discriminate.
Qed.

Lemma endswith_device_split (l : pystr) :
  endswith l (u "device") = true -> exists t rest, split l = t :: rest.
Proof.
  unfold endswith. intros H. apply andb_prop in H as [_ H].
  unfold streq in H. apply bool_decide_eq_true in H.
  destruct (split l) as [|t rest] eqn:E; [|eauto].
  exfalso. revert E. apply split_go_not_nil. right. exists 100.
  split; [|reflexivity].
  rewrite <- (take_drop (length l - length (u "device")) l).
  apply in_or_app. right. rewrite H. vm_compute. left. reflexivity.
Qed.

(** C3.  [check_device_online] returns a device exactly when one line of
    the [adb devices] output ends with ["device"]; the device is then the
    first whitespace-separated token of that line.  With no such line or
    with several it returns [None]. *)
Theorem check_device_online_spec (out : pystr) :
  (check_device_online (Some out) <> None <-> length (ready_lines out) = 1%nat) /\
  (forall l, ready_lines out = [l] ->
     exists t rest, split l = t :: rest /\ check_device_online (Some out) = Some t) /\
  (length (ready_lines out) <> 1%nat -> check_device_online (Some out) = None).
Proof.
  unfold check_device_online.
  destruct (ready_lines out) as [|l [|l' rest]] eqn:E; simpl.
  - split; [split; [done|discriminate]|]. split; [|done]. discriminate.
  - assert (Hl : endswith l (u "device") = true).
    { assert (Hin : l ∈ ready_lines out) by (rewrite E; left).
      unfold ready_lines in Hin. by apply list_elem_of_filter in Hin as [? _]. }
    destruct (endswith_device_split l Hl) as (t & rest & Hs). rewrite Hs.
    split; [split; [done|discriminate]|]. split; [|done].
    intros l0 [= <-]. eauto.
  - split; [split; [done|discriminate]|]. split; [|done]. discriminate.
Qed.

(** ** The monad *)

Lemma bind_inr {A B} (m : M A) (k : A -> M B) s b s' :
  bind m k s = (inr b, s') -> exists a s1, m s = (inr a, s1) /\ k a s1 = (inr b, s').
Proof. unfold bind. destruct (m s) as [[e|a] s1]; [discriminate|eauto]. Qed.

Lemma bind_inl {A B} (m : M A) (k : A -> M B) s e s' :
  m s = (inl e, s') -> bind m k s = (inl e, s').
Proof. unfold bind. by intros ->. Qed.

Lemma bind_inv {A B} (m : M A) (k : A -> M B) s r s' :
  bind m k s = (r, s') ->
  (exists e, m s = (inl e, s') /\ r = inl e) \/
  (exists a s1, m s = (inr a, s1) /\ k a s1 = (r, s')).
Proof.
  unfold bind. destruct (m s) as [[e|a] s1]; intros H.
  - injection H as <- <-. eauto.
  - eauto.
Qed.

Lemma bind_ret_l {A B} (m : M A) (k : A -> M B) s a s1 :
  m s = (inr a, s1) -> bind m k s = k a s1.
Proof. unfold bind. by intros ->. Qed.

Section Preserve.

Variable P : st -> st -> Prop.
Hypothesis P_refl : forall s, P s s.
Hypothesis P_trans : forall s1 s2 s3, P s1 s2 -> P s2 s3 -> P s1 s3.
Hypothesis P_files : forall s f, P s (mkst f (sheets s) (cnt s) (log s)).
Hypothesis P_sheets : forall s sh, P s (mkst (files s) sh (cnt s) (log s)).

Definition preserves {A} (m : M A) : Prop := forall s r s', m s = (r, s') -> P s s'.

Lemma preserves_ret {A} (a : A) : preserves (ret a).
Proof. intros s r s' [= _ <-]. apply P_refl. Qed.

Lemma preserves_raise {A} e : preserves (@raise A e).
Proof. intros s r s' [= _ <-]. apply P_refl. Qed.

Lemma preserves_lift {A} (x : exn + A) : preserves (lift x).
Proof. intros s r s' [= _ <-]. apply P_refl. Qed.

Lemma preserves_bind {A B} (m : M A) (k : A -> M B) :
  preserves m -> (forall a, preserves (k a)) -> preserves (bind m k).
Proof.
  intros Hm Hk s r s'. unfold bind.
  destruct (m s) as [[e|a] s1] eqn:E; intros H.
  - injection H as _ <-. eapply Hm; eauto.
  - eapply P_trans; [eapply Hm; eauto|eapply Hk; eauto].
Qed.

Lemma preserves_try {A} (m : M A) h :
  preserves m -> (forall e, preserves (h e)) -> preserves (try_except m h).
Proof.
  intros Hm Hh s r s'. unfold try_except.
  destruct (m s) as [[e|a] s1] eqn:E; intros H.
  - eapply P_trans; [eapply Hm; eauto|eapply Hh; eauto].
  - injection H as _ <-. eapply Hm; eauto.
Qed.

Lemma preserves_attempt {A} (m : M A) : preserves m -> preserves (attempt m).
Proof.
  intros Hm s r s'. unfold attempt. destruct (m s) as [r1 s1] eqn:E.
  intros [= _ <-]. eapply Hm; eauto.
Qed.

Lemma preserves_get_st : preserves get_st.
Proof. intros s r s' [= _ <-]. apply P_refl. Qed.

Lemma preserves_get_counters : preserves get_counters.
Proof. intros s r s' [= _ <-]. apply P_refl. Qed.

Lemma preserves_path_exists p : preserves (path_exists p).
Proof. intros s r s' [= _ <-]. apply P_refl. Qed.

Lemma preserves_listdir d : preserves (listdir d).
Proof. intros s r s' [= _ <-]. apply P_refl. Qed.

Lemma preserves_read_excel p : preserves (read_excel p).
Proof.
  intros s r s'. unfold read_excel. destruct (assoc_get p (sheets s));
    intros [= _ <-]; apply P_refl.
Qed.

Lemma preserves_to_excel p df : preserves (to_excel p df).
Proof. intros s r s' [= _ <-]. apply P_sheets. Qed.

Lemma preserves_open_wb w p : preserves (open_wb w p).
Proof.
  intros s r s'. unfold open_wb. destruct (open_error w p).
  - intros [= _ <-]. apply P_refl.
  - intros [= _ <-]. apply P_files.
Qed.

Lemma preserves_write_chunks p chunks : preserves (write_chunks p chunks).
Proof.
  induction chunks as [|c rest IH]; simpl.
  - apply preserves_ret.
  - apply preserves_bind; [|intros; apply IH].
    intros s r s' [= _ <-]. apply P_files.
Qed.

End Preserve.

Create HintDb preserve.
#[local] Hint Resolve preserves_ret preserves_raise preserves_lift preserves_get_st
  preserves_get_counters preserves_path_exists preserves_listdir preserves_read_excel
  preserves_to_excel preserves_open_wb preserves_write_chunks : preserve.

(** Decompose a monadic program into its primitives. *)
Ltac preserve_tac :=
  repeat match goal with
  | |- forall _, _ => intros
  | |- preserves _ (bind _ _) => apply preserves_bind
  | |- preserves _ (try_except _ _) => apply preserves_try
  | |- preserves _ (attempt _) => apply preserves_attempt
  | |- preserves _ (match ?x with _ => _ end) => destruct x
  | |- preserves _ (if ?b then _ else _) => destruct b
  | |- _ => solve [eauto with preserve]
  end.

(** Two invariants used below: the counters are untouched, and no install
    is logged. *)
Definition same_cnt (s s' : st) : Prop := cnt s' = cnt s.

Definition is_install (ev : event) : bool :=
  match ev with EvInstall _ _ => true | _ => false end.

Definition no_install_after (s s' : st) : Prop :=
  exists seg, log s' = log s ++ seg /\ Forall (fun ev => is_install ev = false) seg.

Lemma same_cnt_refl s : same_cnt s s.
Proof. reflexivity. Qed.
Lemma same_cnt_trans s1 s2 s3 : same_cnt s1 s2 -> same_cnt s2 s3 -> same_cnt s1 s3.
Proof. unfold same_cnt. congruence. Qed.
Lemma same_cnt_files s f : same_cnt s (mkst f (sheets s) (cnt s) (log s)).
Proof. reflexivity. Qed.
Lemma same_cnt_sheets s sh : same_cnt s (mkst (files s) sh (cnt s) (log s)).
Proof. reflexivity. Qed.

Lemma no_install_refl s : no_install_after s s.
Proof. exists []. by rewrite app_nil_r. Qed.
Lemma no_install_trans s1 s2 s3 :
  no_install_after s1 s2 -> no_install_after s2 s3 -> no_install_after s1 s3.
Proof.
  intros (seg1 & H1 & F1) (seg2 & H2 & F2). exists (seg1 ++ seg2).
  split; [by rewrite H2, H1, app_assoc|by apply Forall_app].
Qed.
Lemma no_install_files s f : no_install_after s (mkst f (sheets s) (cnt s) (log s)).
Proof. exists []. by rewrite app_nil_r. Qed.
Lemma no_install_sheets s sh : no_install_after s (mkst (files s) sh (cnt s) (log s)).
Proof. exists []. by rewrite app_nil_r. Qed.

#[local] Hint Resolve same_cnt_refl same_cnt_trans same_cnt_files same_cnt_sheets
  no_install_refl no_install_trans no_install_files no_install_sheets : preserve.

Lemma emit_same_cnt ev : preserves same_cnt (emit ev).
Proof. intros s r s' [= _ <-]. reflexivity. Qed.

Lemma emit_no_install ev : is_install ev = false -> preserves no_install_after (emit ev).
Proof. intros Hev s r s' [= _ <-]. exists [ev]. split; [done|by constructor]. Qed.

Lemma modify_no_install f : preserves no_install_after (modify_cnt f).
Proof. intros s r s' [= _ <-]. exists []. by rewrite app_nil_r. Qed.

#[local] Hint Resolve emit_same_cnt modify_no_install : preserve.
#[local] Hint Extern 1 (preserves no_install_after (emit _)) =>
  apply emit_no_install; reflexivity : preserve.

Lemma download_app_same_cnt w n url dir sp : preserves same_cnt (download_app w n url dir sp).
Proof. unfold download_app, download_body. preserve_tac. Qed.

Lemma download_app_no_install w n url dir sp :
  preserves no_install_after (download_app w n url dir sp).
Proof. unfold download_app, download_body. preserve_tac. Qed.

Lemma install_app_same_cnt w d p sp : preserves same_cnt (install_app w d p sp).
Proof. unfold install_app. preserve_tac. Qed.

Lemma update_file_same_cnt ex n url ds is :
  preserves same_cnt (update_excel_status_file ex n url ds is).
Proof. unfold update_excel_status_file. preserve_tac. Qed.

Lemma update_file_no_install ex n url ds is :
  preserves no_install_after (update_excel_status_file ex n url ds is).
Proof. unfold update_excel_status_file. preserve_tac. Qed.

(** ** C4: [download_app] *)

Lemma download_body_ok w n url dir s v s1 :
  download_body w n url dir s = (inr v, s1) ->
  v = (Some (path_join dir (n ++ u ".apk")), u "下载成功").
Proof.
  unfold download_body. intros H.
  repeat (apply bind_inr in H as (? & ? & _ & H)).
  by injection H as <- _.
Qed.




(** ** C6: [install_app] *)

(** C6 (as stated: the failure status carries the tool's error text).  The
    output of [adb] is not captured: the status built from the
    [CalledProcessError] names the command and the exit status only. *)
Lemma install_app_omits_tool_output :
  let out := u "Failure [INSTALL_FAILED_VERSION_DOWNGRADE]" in
  let w := mkworld (fun _ => inl (mkexn [] [])) (fun _ => None)
             (fun _ _ => Exited 1 out) (fun _ => None) in
  exists msg s', install_app w (u "emulator-5554") (u "/w/app.apk") true st_empty = (inr msg, s') /\
    contains msg out = false /\
    msg = u "安装失败: Command '['adb', '-s', 'emulator-5554', 'install', '/w/app.apk']' returned non-zero exit status 1.".
Proof. do 2 eexists. split; [reflexivity|]. vm_compute. split; reflexivity. Qed.

(** C6 (amended).  When [adb install] exits with status 0, [install_app]
    returns ["安装成功"]; when it exits with another status, it returns
    ["安装失败: "] followed by the text of the [CalledProcessError], which
    names the command and its exit status (the tool's own output is not
    captured).  In both cases only the install attempt is logged. *)
Theorem install_app_status (w : world) (d p : pystr) (sp : bool) (s : st)
    (returncode : Z) (tool_output : pystr) :
  adb_install w d p = Exited returncode tool_output ->
  install_app w d p sp s =
    (inr (if returncode =? 0 then u "安装成功"
          else u "安装失败: " ++ called_process_error_str (adb_install_cmd d p) returncode),
     mkst (files s) (sheets s) (cnt s) (log s ++ [EvInstall d p])).
Proof.
  intros H. unfold install_app, bind, emit. rewrite H.
  by destruct (returncode =? 0).
Qed.

Lemma install_app_status_witness :
  let w := mkworld (fun _ => inl (mkexn [] [])) (fun _ => None)
             (fun _ _ => Exited 1 (u "Failure")) (fun _ => None) in
  adb_install w (u "d") (u "/w/a.apk") = Exited 1 (u "Failure") /\
  install_app w (u "d") (u "/w/a.apk") true st_empty =
    (inr (u "安装失败: " ++ called_process_error_str (adb_install_cmd (u "d") (u "/w/a.apk")) 1),
     mkst [] [] counters0 [EvInstall (u "d") (u "/w/a.apk")]).
Proof.
  intros w. split; [reflexivity|].
  exact (install_app_status w (u "d") (u "/w/a.apk") true st_empty 1 (u "Failure") eq_refl).
Defined.

(** ** C5: install follows a successful download *)

Lemma path_join_nonempty (a b : pystr) : b <> [] -> path_join a b <> [].
Proof.
  intros Hb. unfold path_join.
  destruct b as [|c b']; [done|].
  repeat case_match; intros Hx; try discriminate;
    apply app_eq_nil in Hx as [_ Hx]; discriminate.
Qed.

Lemma download_app_path w n url dir sp s p ds s1 :
  download_app w n url dir sp s = (inr (Some p, ds), s1) -> p <> [].
Proof.
  assert (Hu : download_app w n url dir sp s =
    match download_body w n url dir s with
    | (inl e, s1) => (inr (None, u "下载失败: " ++ exn_str e), s1)
    | (inr a, s1) => (inr a, s1)
    end) by reflexivity.
  rewrite Hu. destruct (download_body w n url dir s) as [[e|v] s2] eqn:E; [discriminate|].
  intros [= -> _]. apply download_body_ok in E. injection E as -> _.
  apply path_join_nonempty. destruct n; discriminate.
Qed.

Lemma install_app_log w d p sp s r s' :
  install_app w d p sp s = (r, s') -> log s' = log s ++ [EvInstall d p].
Proof.
  unfold install_app, bind, emit. simpl.
  destruct (adb_install w d p) as [rc o|e]; [destruct (rc =? 0)|];
    intros [= _ <-]; reflexivity.
Qed.

Lemma update_file_log ex n url ds is s r s' :
  update_excel_status_file ex n url ds is s = (r, s') ->
  (r = inr tt /\ log s' = log s ++ [EvUpsert n url ds is]) \/
  ((exists e, r = inl e) /\ log s' = log s).
Proof.
  unfold update_excel_status_file, bind, read_excel, to_excel, emit. simpl.
  destruct (assoc_get ex (sheets s)); intros [= <- <-]; [left|right]; eauto.
Qed.

Lemma no_install_filter seg :
  Forall (fun ev => is_install ev = false) seg ->
  filter (fun ev => is_install ev = true) seg = [].
Proof.
  induction 1 as [|ev seg Hev _ IH]; [done|].
  rewrite filter_cons_False by congruence. done.
Qed.

(** C5.  In the download-and-install task of an entry, the installer is
    called (once, on the downloaded file) exactly when [download_app]
    returned a path; when it returned [None] the installer is not called
    and the row is recorded with the install status ["未安装"]. *)
Theorem process_app_installs_iff_downloaded (w : world)
    (device_id download_dir excel_file : pystr) (r : row) (s : st)
    (apk_path : option pystr) (download_status : pystr) (s1 : st)
    (res : exn + unit) (s' : st) :
  download_app w (app_name r) (link r) download_dir true s = (inr (apk_path, download_status), s1) ->
  DownloadAndInstall.process_app w device_id download_dir excel_file r s = (res, s') ->
  exists seg, log s' = log s ++ seg /\
    filter (fun ev => is_install ev = true) seg =
      match apk_path with Some p => [EvInstall device_id p] | None => [] end /\
    (apk_path = None -> res = inr tt ->
       exists seg0, seg = seg0 ++ [EvUpsert (app_name r) (link r) download_status (u "未安装")]).
Proof.
  intros Hd Hp.
  destruct (download_app_no_install w (app_name r) (link r) download_dir true s _ _ Hd)
    as (seg1 & Hl1 & F1).
  unfold DownloadAndInstall.process_app in Hp.
  rewrite (bind_ret_l _ _ _ _ _ Hd) in Hp. cbn beta iota in Hp.
  set (s2 := mkst (files s1) (sheets s1)
               ((if contains download_status (u "成功")
                 then incr_download_success else incr_download_failure) (cnt s1)) (log s1)) in Hp.
  rewrite (bind_ret_l (modify_cnt (if contains download_status (u "成功")
                 then incr_download_success else incr_download_failure)) _ s1 tt s2 eq_refl) in Hp.
  destruct apk_path as [p|].
  - pose proof (download_app_path _ _ _ _ _ _ _ _ _ Hd) as Hne.
    assert (Hpe : negb (streq p []) = true).
    { unfold streq. rewrite bool_decide_false by done. done. }
    rewrite Hpe in Hp.
    apply bind_inv in Hp as [(e & Hm & ->)|(st_ & s3 & Hm & Hp)].
    + apply bind_inv in Hm as [(e' & Hi & _)|(x & s4 & Hi & Hm)].
      * pose proof (install_app_log _ _ _ _ _ _ _ Hi) as Hl3.
        exists (seg1 ++ [EvInstall device_id p]).
        split; [rewrite Hl3; simpl; by rewrite Hl1, app_assoc|].
        split; [|discriminate].
        rewrite filter_app, no_install_filter by done. reflexivity.
      * exfalso. unfold bind, modify_cnt, ret in Hm. discriminate.
    + apply bind_inv in Hm as [(e' & Hi & [=])|(x & s4 & Hi & Hm)].
      pose proof (install_app_log _ _ _ _ _ _ _ Hi) as Hl3.
      unfold bind, modify_cnt, ret in Hm. injection Hm as <- <-.
      apply update_file_log in Hp. simpl in Hp.
      exists (seg1 ++ [EvInstall device_id p] ++
              match res with inr _ => [EvUpsert (app_name r) (link r) download_status x] | inl _ => [] end).
      destruct Hp as [[-> Hl]|[[e ->] Hl]]; rewrite Hl; simpl; rewrite Hl3; simpl; rewrite Hl1.
      * split; [by rewrite <- !app_assoc|]. split; [|discriminate].
        rewrite !filter_app, no_install_filter by done. simpl.
        rewrite filter_cons_True by done. by rewrite filter_cons_False by done.
      * split; [by rewrite <- !app_assoc|]. split; [|discriminate].
        rewrite !filter_app, no_install_filter by done. simpl.
        by rewrite filter_cons_True by done.
  - cbn in Hp. apply update_file_log in Hp. simpl in Hp.
    destruct Hp as [[-> Hl]|[[e ->] Hl]]; rewrite Hl; simpl; rewrite Hl1.
    + exists (seg1 ++ [EvUpsert (app_name r) (link r) download_status (u "未安装")]).
      split; [by rewrite app_assoc|]. split.
      * rewrite filter_app, no_install_filter by done. simpl.
        by rewrite filter_cons_False by done.
      * intros _ _. eauto.
    + exists seg1. split; [done|]. split; [by apply no_install_filter|].
      discriminate.
Qed.

(** ** C2: the counters of a batch *)

Open Scope nat_scope.

Definition isum (c : counters) : nat := install_success c + install_failure c.


Lemma modify_cnt_eq f s r s' :
  modify_cnt f s = (r, s') -> r = inr tt /\ cnt s' = f (cnt s).
Proof. intros [= <- <-]. done. Qed.

Lemma ret_eq {A} (a : A) s r s' : ret a s = (r, s') -> r = inr a /\ s' = s.
Proof. intros [= <- <-]. done. Qed.




Lemma attempt_eq {A} (m : M A) s r s' :
  attempt m s = (r, s') -> exists r', r = inr r' /\ m s = (r', s').
Proof. unfold attempt. destruct (m s) as [r1 s1]. intros [= <- <-]. eauto. Qed.


Lemma run_in_order_fst (tasks : list (M unit)) order s rs s' :
  run_in_order tasks order s = (inr rs, s') ->
  Forall (fun i => (i < length tasks)%nat) order -> map fst rs = order.
Proof.
  revert s rs s'. induction order as [|i order IH]; intros s rs s' H HF; simpl in H.
  - by apply ret_eq in H as [[= ->] _].
  - apply Forall_cons in HF as [Hi HF].
    destruct (tasks !! i) as [t|] eqn:Ht;
      [|apply lookup_ge_None in Ht; lia].
    apply bind_inr in H as (r1 & s1 & H1 & H).
    apply bind_inr in H as (rs' & s2 & H2 & H). apply ret_eq in H as [[= ->] _].
    simpl. f_equal. eauto.
Qed.

Lemma result_of_in (rs : list (nat * (exn + unit))) i r :
  NoDup (map fst rs) -> In (i, r) rs -> result_of i rs = Some r.
Proof.
  induction rs as [|[j r'] rs IH]; simpl; [done|].
  intros Hnd [[= -> ->]|Hin]; apply NoDup_cons in Hnd as [Hj Hnd].
  - by rewrite Nat.eqb_refl.
  - destruct (Nat.eqb_spec j i) as [->|]; [|eauto].
    exfalso. apply Hj. apply list_elem_of_In. apply in_map_iff. exists (i, r). eauto.
Qed.

Lemma collect_results_ok js rs s r s' :
  collect_results js rs s = (r, s') -> r = inr tt ->
  forall j e, In j js -> result_of j rs <> Some (inl e).
Proof.
  revert s. induction js as [|j js IH]; intros s H Hr j' e Hin; simpl in *; [done|].
  destruct (result_of j rs) as [[e'|[]]|] eqn:E.
  - injection H as <- _. discriminate.
  - destruct Hin as [<-|Hin]; [by rewrite E|]. eauto.
  - destruct Hin as [<-|Hin]; [by rewrite E|]. eauto.
Qed.



Lemma workflow_prefix (excel_file : pystr) (df : ledger) (s0 : st) :
  assoc_get excel_file (sheets s0) = Some df ->
  path_exists excel_file s0 = (inr true, s0) /\ read_excel excel_file s0 = (inr df, s0).
Proof. intros H. unfold path_exists, read_excel. by rewrite H. Qed.


Open Scope Z_scope.

Lemma process_app_installs_iff_downloaded_witness :
  exists apk_path download_status s1 res s',
    download_app demo_world (u "b") (u "http://example.com/b.apk") (u "/w") true demo_state
      = (inr (apk_path, download_status), s1) /\
    DownloadAndInstall.process_app demo_world (u "dev") (u "/w") (u "/w/download.xlsx")
      (mkrow (u "b") (u "http://example.com/b.apk") [] []) demo_state = (res, s') /\
    exists seg, log s' = log demo_state ++ seg /\
      filter (fun ev => is_install ev = true) seg =
        match apk_path with Some p => [EvInstall (u "dev") p] | None => [] end /\
      (apk_path = None -> res = inr tt ->
         exists seg0, seg = seg0 ++ [EvUpsert (u "b") (u "http://example.com/b.apk")
                                       download_status (u "未安装")]).
Proof.
  do 5 eexists. split; [reflexivity|]. split; [reflexivity|].
  exact (process_app_installs_iff_downloaded demo_world (u "dev") (u "/w") (u "/w/download.xlsx")
           (mkrow (u "b") (u "http://example.com/b.apk") [] []) demo_state _ _ _ _ _
           eq_refl eq_refl).
Defined.


(** ** Installing local packages *)

Lemma assoc_get_set {V} k (v : V) l : assoc_get k (assoc_set k v l) = Some v.
Proof.
  induction l as [|[k' v'] l IH]; simpl.
  - unfold streq. by rewrite bool_decide_true.
  - destruct (streq k' k) eqn:E; simpl.
    + unfold streq. by rewrite bool_decide_true.
    + by rewrite E.
Qed.

Lemma update_file_sheet ex n url ds is s s' :
  update_excel_status_file ex n url ds is s = (inr tt, s') ->
  exists df1, assoc_get ex (sheets s) = Some df1 /\
    assoc_get ex (sheets s') = Some (update_excel_status df1 n url ds is) /\
    log s' = log s ++ [EvUpsert n url ds is].
Proof.
  unfold update_excel_status_file, bind, read_excel, to_excel, emit. simpl.
  destruct (assoc_get ex (sheets s)) as [df1|]; [|discriminate].
  intros [= <-]. exists df1. simpl. by rewrite assoc_get_set.
Qed.

Lemma lookup_url_spec df n s url s' :
  InstallLocal.lookup_url df n s = (inr url, s') -> url = expected_url df n /\ s' = s.
Proof.
  unfold InstallLocal.lookup_url, expected_url.
  destruct (existsb _ (names df)) eqn:E.
  - destruct (rows_named n df) as [|r rest]; [discriminate|]. intros [= <- <-]. done.
  - assert (Hn : rows_named n df = []).
    { apply rows_named_nil. intros Hex. apply existsb_names in Hex. congruence. }
    rewrite Hn. intros [= <- <-]. done.
Qed.

Lemma expected_url_found df n :
  (exists r, r ∈ df /\ app_name r = n) ->
  exists r rest, rows_named n df = r :: rest /\ expected_url df n = link r.
Proof.
  intros Hex. unfold expected_url.
  destruct (rows_named n df) as [|r rest] eqn:E.
  - apply rows_named_nil in E. contradiction.
  - eauto.
Qed.

Lemma expected_url_missing df n :
  ~ (exists r, r ∈ df /\ app_name r = n) -> expected_url df n = u "本地安装".
Proof. intros Hn. apply rows_named_nil in Hn. unfold expected_url. by rewrite Hn. Qed.

(** C7.  In the install-local workflow, a package file whose task
    completes is first installed, and then the ledger is upserted under
    the file name without its extension, with download status ["已下载"],
    the installer's status, and as link the link of the first row with
    that name in the ledger snapshot [df] read before the tasks start, or
    the marker ["本地安装"] when the snapshot has no such row. *)
Theorem install_apk_records (w : world) (device_id apk_dir excel_file : pystr)
    (df : ledger) (apk_file : pystr) (s s' : st) :
  InstallLocal.install_apk w device_id apk_dir excel_file df apk_file s = (inr tt, s') ->
  exists install_status s1 df1,
    install_app w device_id (path_join apk_dir apk_file) true s = (inr install_status, s1) /\
    assoc_get excel_file (sheets s1) = Some df1 /\
    assoc_get excel_file (sheets s') =
      Some (update_excel_status df1 (splitext_root apk_file)
              (expected_url df (splitext_root apk_file)) (u "已下载") install_status) /\
    log s' = log s ++ [EvInstall device_id (path_join apk_dir apk_file);
                       EvUpsert (splitext_root apk_file) (expected_url df (splitext_root apk_file))
                                (u "已下载") install_status] /\
    ((exists r, r ∈ df /\ app_name r = splitext_root apk_file) ->
       exists r rest, rows_named (splitext_root apk_file) df = r :: rest /\
         expected_url df (splitext_root apk_file) = link r) /\
    (~ (exists r, r ∈ df /\ app_name r = splitext_root apk_file) ->
       expected_url df (splitext_root apk_file) = u "本地安装").
Proof.
  intros H. unfold InstallLocal.install_apk in H.
  apply bind_inr in H as (status & s1 & Hi & H).
  apply bind_inr in H as (url & s2 & Hl & H).
  apply lookup_url_spec in Hl as [-> ->].
  apply bind_inr in H as ([] & s3 & Hu & H).
  apply update_file_sheet in Hu as (df1 & Hg1 & Hg3 & Hl3).
  injection H as <-. simpl.
  exists status, s1, df1. split; [done|]. split; [done|]. split; [done|].
  split; [|split; [apply expected_url_found | apply expected_url_missing]].
  rewrite Hl3. rewrite (install_app_log _ _ _ _ _ _ _ Hi). by rewrite <- app_assoc.
Qed.

Lemma install_apk_records_witness :
  exists s',
    InstallLocal.install_apk demo_world (u "dev") (u "/w") (u "/w/download.xlsx")
      demo_ledger (u "a.apk") demo_state = (inr tt, s') /\
  exists install_status s1 df1,
    install_app demo_world (u "dev") (path_join (u "/w") (u "a.apk")) true demo_state
      = (inr install_status, s1) /\
    assoc_get (u "/w/download.xlsx") (sheets s1) = Some df1.
Proof.
  assert (Hr : exists s', InstallLocal.install_apk demo_world (u "dev") (u "/w")
                   (u "/w/download.xlsx") demo_ledger (u "a.apk") demo_state = (inr tt, s'))
    by (eexists; cbv; reflexivity).
  destruct Hr as [s' Hr]. exists s'. split; [exact Hr|].
  destruct (install_apk_records demo_world (u "dev") (u "/w") (u "/w/download.xlsx")
              demo_ledger (u "a.apk") demo_state s' Hr)
    as (status & s1 & df1 & Hi & Hg & _).
  exists status, s1, df1. split; [exact Hi | exact Hg].
Defined.

(** ** The download-only workflow *)

Section PreserveTasks.

Variable P : st -> st -> Prop.
Hypothesis P_refl : forall s, P s s.
Hypothesis P_trans : forall s1 s2 s3, P s1 s2 -> P s2 s3 -> P s1 s3.

Lemma preserves_run_sequential (tasks : list (M unit)) :
  Forall (preserves P) tasks -> preserves P (run_sequential tasks).
Proof.
  induction 1 as [|t tasks Ht _ IH]; simpl.
  - by apply preserves_ret.
  - by apply preserves_bind.
Qed.

Lemma preserves_run_in_order (tasks : list (M unit)) order :
  Forall (preserves P) tasks -> preserves P (run_in_order tasks order).
Proof.
  intros HF. induction order as [|i order IH]; simpl.
  - by apply preserves_ret.
  - destruct (tasks !! i) as [t|] eqn:E; [|exact IH].
    apply preserves_bind; auto.
    + apply preserves_attempt. eapply Forall_lookup_1; eauto.
    + intros r. apply preserves_bind; auto. intros. by apply preserves_ret.
Qed.

Lemma preserves_collect_results js rs : preserves P (collect_results js rs).
Proof.
  induction js as [|j js IH]; simpl.
  - by apply preserves_ret.
  - destruct (result_of j rs) as [[e|[]]|]; auto. by apply preserves_raise.
Qed.

Lemma preserves_run_tasks parallel order (tasks : list (M unit)) :
  Forall (preserves P) tasks -> preserves P (run_tasks parallel order tasks).
Proof.
  intros HF. unfold run_tasks, thread_pool. destruct parallel.
  - apply preserves_bind; auto.
    + by apply preserves_run_in_order.
    + intros. by apply preserves_collect_results.
  - by apply preserves_run_sequential.
Qed.

End PreserveTasks.

#[local] Hint Resolve download_app_no_install update_file_no_install : preserve.

Lemma download_only_process_app_no_install w dir ex (r : row) :
  preserves no_install_after (DownloadOnly.process_app w dir ex r).
Proof. unfold DownloadOnly.process_app. preserve_tac. Qed.

Lemma download_apps_no_install w d dir parallel order :
  preserves no_install_after (DownloadOnly.download_apps w d dir parallel order).
Proof.
  unfold DownloadOnly.download_apps. cbv zeta. preserve_tac.
  apply (preserves_run_tasks no_install_after no_install_refl no_install_trans).
  apply Forall_forall. intros t Ht. apply list_elem_of_In in Ht.
  apply in_map_iff in Ht as (r0 & <- & _).
  apply download_only_process_app_no_install.
Qed.

(** C9.  [download_apps] does not depend on its device argument: for any
    two device ids (among them [None], which [main] passes) it has the same
    result (the printed counts) and the same effect on files, spreadsheets,
    counters and the event log; and the events it logs contain no install
    (it has no step that lists devices either). *)
Theorem download_apps_device_independent (w : world) (d1 d2 : option pystr)
    (download_dir : pystr) (parallel : bool) (order : list nat) (s : st) :
  DownloadOnly.download_apps w d1 download_dir parallel order s =
    DownloadOnly.download_apps w d2 download_dir parallel order s /\
  exists seg, log (snd (DownloadOnly.download_apps w d1 download_dir parallel order s)) = log s ++ seg /\
    Forall (fun ev => is_install ev = false) seg.
Proof.
  split; [reflexivity|].
  destruct (DownloadOnly.download_apps w d1 download_dir parallel order s) as [r s'] eqn:E.
  exact (download_apps_no_install _ _ _ _ _ _ _ _ E).
Qed.

(** ** Deleting the packages of a directory *)

Lemma assoc_get_del_same {V} k (l : list (pystr * V)) : assoc_get k (assoc_del k l) = None.
Proof.
  induction l as [|[k' v] l IH]; simpl; [done|].
  destruct (streq k' k) eqn:E; [done|]. simpl. by rewrite E.
Qed.

Lemma assoc_get_del_other {V} k k' (l : list (pystr * V)) :
  assoc_get k l = None -> assoc_get k (assoc_del k' l) = None.
Proof.
  induction l as [|[k0 v] l IH]; simpl; [done|].
  destruct (streq k0 k) eqn:E; [discriminate|]. intros H.
  destruct (streq k0 k'); simpl; [auto|]. rewrite E. auto.
Qed.

Lemma os_remove_keeps_absent w p k s r s' :
  os_remove w p s = (r, s') -> absent k s -> absent k s'.
Proof.
  unfold os_remove, absent. destruct (remove_error w p); [by intros [= _ <-]|].
  destruct (assoc_get p (files s)), (assoc_get p (sheets s));
    intros [= _ <-]; simpl; intros [H1 H2]; split; auto using assoc_get_del_other.
Qed.

Lemma os_remove_makes_absent w p s r s' :
  remove_error w p = None -> os_remove w p s = (r, s') -> absent p s'.
Proof.
  unfold os_remove, absent. intros ->.
  destruct (assoc_get p (files s)) eqn:E1, (assoc_get p (sheets s)) eqn:E2;
    intros [= _ <-]; simpl; auto using assoc_get_del_same.
Qed.

Lemma try_remove_eq w p s r s' :
  try_except (os_remove w p) (fun _ => ret tt) s = (r, s') ->
  r = inr tt /\ exists r0, os_remove w p s = (r0, s').
Proof.
  unfold try_except. destruct (os_remove w p s) as [[e|[]] s1] eqn:E.
  - intros [= <- <-]. eauto.
  - intros [= <- <-]. eauto.
Qed.

Lemma remove_each_keeps_absent w dir apks k s r s' :
  remove_each w dir apks s = (r, s') -> absent k s -> absent k s'.
Proof.
  revert s. induction apks as [|a apks IH]; intros s H Ha; simpl in H.
  - by injection H as _ <-.
  - unfold bind in H.
    destruct (try_except (os_remove w (path_join dir a)) (fun _ => ret tt) s) as [r1 s1] eqn:H1.
    apply try_remove_eq in H1 as [-> [r0 H1]].
    eapply IH; [exact H|]. eapply os_remove_keeps_absent; eauto.
Qed.

Lemma remove_each_spec w dir apks s r s' :
  remove_each w dir apks s = (r, s') ->
  r = inr tt /\
  forall f, f ∈ apks -> remove_error w (path_join dir f) = None -> absent (path_join dir f) s'.
Proof.
  revert s. induction apks as [|a apks IH]; intros s H; simpl in H.
  - injection H as <- <-. split; [done|]. intros f Hf. by apply not_elem_of_nil in Hf.
  - unfold bind in H.
    destruct (try_except (os_remove w (path_join dir a)) (fun _ => ret tt) s) as [r1 s1] eqn:H1.
    apply try_remove_eq in H1 as [-> [r0 H1]].
    destruct (IH _ H) as [-> IHf]. split; [done|].
    intros f Hf Hre. apply elem_of_cons in Hf as [->|Hf]; [|auto].
    eapply remove_each_keeps_absent; [exact H|].
    eapply os_remove_makes_absent; eauto.
Qed.

(** C10.  After [delete_all_apks] lists the directory: when the
    operator's line, stripped and lowercased, is not ["y"], nothing at all
    changes; when it is ["y"], every listed package file whose removal
    raises no error no longer exists afterwards (and the call returns
    normally). *)
Theorem delete_all_apks_confirmation (w : world) (current_dir line : pystr) (s : st)
    (entries : list pystr) :
  fst (listdir current_dir s) = inr entries ->
  (streq (lower (strip line)) (u "y") = false ->
     delete_all_apks w current_dir line s = (inr tt, s)) /\
  (streq (lower (strip line)) (u "y") = true ->
     fst (delete_all_apks w current_dir line s) = inr tt /\
     forall f, f ∈ filter (fun f => endswith f (u ".apk") = true) entries ->
       remove_error w (path_join current_dir f) = None ->
       absent (path_join current_dir f) (snd (delete_all_apks w current_dir line s))).
Proof.
  intros Hl. unfold delete_all_apks, bind.
  assert (Hls : listdir current_dir s = (inr entries, s)).
  { unfold listdir in *. simpl in Hl. by injection Hl as <-. }
  rewrite Hls.
  destruct (filter (fun f => endswith f (u ".apk") = true) entries) as [|a rest] eqn:Ef.
  - split; [done|]. intros _. split; [done|]. intros f Hf. by apply not_elem_of_nil in Hf.
  - split; [by intros ->|]. intros ->.
    destruct (remove_each w current_dir (a :: rest) s) as [r s'] eqn:E.
    apply remove_each_spec in E as [-> Hf]. simpl. split; [done|]. exact Hf.
Qed.

Lemma delete_all_apks_confirmation_witness :
  let s := mkst [(u "/w/a.apk", [1; 2; 3])] [] counters0 [] in
  fst (listdir (u "/w") s) = inr [u "a.apk"] /\
  absent (path_join (u "/w") (u "a.apk")) (snd (delete_all_apks demo_world (u "/w") (u " Y" ++ [10]) s)).
Proof.
  intros s. split; [reflexivity|].
  apply (proj2 (delete_all_apks_confirmation demo_world (u "/w") (u " Y" ++ [10]) s [u "a.apk"]
                  eq_refl) ltac:(vm_compute; reflexivity)).
  - apply list_elem_of_In. vm_compute. auto.
  - reflexivity.
Defined.

(** * Further properties of the tool *)

(** ** The association-list store *)

Lemma streq_true a b : streq a b = true <-> a = b.
Proof. unfold streq. apply bool_decide_eq_true. Qed.

Lemma streq_refl a : streq a a = true.
Proof. by apply streq_true. Qed.

Lemma assoc_get_set_other {V} k k' (v : V) l :
  k' <> k -> assoc_get k (assoc_set k' v l) = assoc_get k l.
Proof.
  intros Hne. induction l as [|[k0 v0] l IH]; simpl.
  - destruct (streq k' k) eqn:E; [apply streq_true in E; congruence|done].
  - destruct (streq k0 k') eqn:E1; simpl.
    + apply streq_true in E1 as ->.
      destruct (streq k' k) eqn:E; [apply streq_true in E; congruence|done].
    + destruct (streq k0 k); [done|exact IH].
Qed.

Lemma assoc_set_set {V} k (v1 v2 : V) l :
  assoc_set k v2 (assoc_set k v1 l) = assoc_set k v2 l.
Proof.
  induction l as [|[k0 v0] l IH]; simpl.
  - by rewrite streq_refl.
  - destruct (streq k0 k) eqn:E; simpl.
    + by rewrite streq_refl.
    + by rewrite E, IH.
Qed.

Lemma assoc_set_get {V} k (v : V) l :
  assoc_get k l = Some v -> assoc_set k v l = l.
Proof.
  induction l as [|[k0 v0] l IH]; simpl; [discriminate|].
  destruct (streq k0 k) eqn:E.
  - apply streq_true in E as ->. by intros [= ->].
  - intros H. by rewrite IH.
Qed.

(** ** Writing a downloaded body *)

Lemma write_chunks_eq p chunks s old :
  assoc_get p (files s) = Some old ->
  write_chunks p chunks s =
    (inr tt, mkst (assoc_set p (old ++ concat chunks) (files s)) (sheets s) (cnt s) (log s)).
Proof.
  revert s old. induction chunks as [|d rest IH]; intros s old Hg; simpl.
  - rewrite app_nil_r, (assoc_set_get _ _ _ Hg). by destruct s.
  - unfold bind, write_bytes. rewrite Hg. simpl.
    rewrite (IH _ (old ++ d)); simpl; [|apply assoc_get_set].
    by rewrite assoc_set_set, app_assoc.
Qed.

(** The state after a download that reached the file: the target holds
    the body chunks written so far, the request is logged. *)
Lemma download_body_cases w n url dir s r s' :
  download_body w n url dir s = (r, s') ->
  let p := path_join dir (n ++ u ".apk") in
  let s0 := mkst (files s) (sheets s) (cnt s) (log s ++ [EvGet url]) in
  (s' = s0 /\ exists e, r = inl e) \/
  exists resp, http_get w url = inr resp /\ open_error w p = None /\
    s' = mkst (assoc_set p (concat (body resp)) (files s)) (sheets s) (cnt s)
              (log s ++ [EvGet url]) /\
    (r = inr (Some p, u "下载成功") <-> body_error resp = None) /\
    (forall e, body_error resp = Some e -> r = inl e).
Proof.
  intros H p s0. unfold download_body, bind, emit, lift, ret, raise in H. simpl in H.
  fold p in H.
  destruct (http_get w url) as [e|resp] eqn:Eg; [left; injection H as <- <-; eauto|].
  destruct (raise_for_status resp) as [e|[]]; [left; injection H as <- <-; eauto|].
  destruct (match content_length resp with Some v => py_int v | None => inr 0 end)
    as [e|sz]; [left; injection H as <- <-; eauto|].
  unfold open_wb in H. destruct (open_error w p) as [e|] eqn:Eo;
    [left; injection H as <- <-; eauto|].
  rewrite (write_chunks_eq p (body resp) _ []) in H by (simpl; apply assoc_get_set).
  simpl in H. rewrite assoc_set_set in H.
  right. exists resp. split; [done|]. split; [done|].
  destruct (body_error resp) as [e|].
  - injection H as <- <-. split; [done|]. split; [split; discriminate|]. by intros e' [= ->].
  - injection H as <- <-. split; [done|]. split; [done|]. discriminate.
Qed.

(** X: a download that [download_app] reports as done has saved the whole
    body, every chunk in order, at the path it returns. *)
Theorem download_app_saves_body (w : world) (app_name' url download_dir : pystr)
    (sp : bool) (s s' : st) (p status : pystr) :
  download_app w app_name' url download_dir sp s = (inr (Some p, status), s') ->
  exists resp, http_get w url = inr resp /\
    p = path_join download_dir (app_name' ++ u ".apk") /\
    status = u "下载成功" /\
    assoc_get p (files s') = Some (concat (body resp)).
Proof.
  unfold download_app, try_except.
  destruct (download_body w app_name' url download_dir s) as [r s1] eqn:E.
  destruct r as [e|v]; [discriminate|]. intros [= -> <-].
  pose proof (download_body_ok _ _ _ _ _ _ _ E) as [= -> ->].
  apply download_body_cases in E as [[_ [e' [=]]]|(resp & Hg & _ & -> & _ & _)].
  exists resp. split; [done|]. split; [done|]. split; [done|].
  simpl. apply assoc_get_set.
Qed.

Lemma download_app_state w n url dir sp s r s' :
  download_app w n url dir sp s = (r, s') ->
  exists r0, download_body w n url dir s = (r0, s').
Proof.
  unfold download_app, try_except.
  destruct (download_body w n url dir s) as [[e|v] s1]; intros [= _ <-]; eauto.
Qed.

(** X: when the body stream breaks after the file was opened,
    [download_app] reports a failure, but the file stays on disk holding
    the chunks received before the break (an earlier file at that path is
    truncated). *)
Theorem download_app_keeps_partial_file (w : world) (app_name' url download_dir : pystr)
    (sp : bool) (s : st) (resp : response) (e : exn) :
  http_get w url = inr resp ->
  raise_for_status resp = inr tt ->
  (forall v, content_length resp = Some v -> exists k, py_int v = inr k) ->
  open_error w (path_join download_dir (app_name' ++ u ".apk")) = None ->
  body_error resp = Some e ->
  let p := path_join download_dir (app_name' ++ u ".apk") in
  let s' := mkst (assoc_set p (concat (body resp)) (files s)) (sheets s) (cnt s)
                 (log s ++ [EvGet url]) in
  download_app w app_name' url download_dir sp s = (inr (None, u "下载失败: " ++ exn_str e), s') /\
  assoc_get p (files s') = Some (concat (body resp)).
Proof.
  intros Hg Hr Hc Ho Hb p s'. fold p in Ho. split; [|apply assoc_get_set].
  unfold download_app, try_except, download_body, bind, emit, lift, ret, raise. simpl.
  rewrite Hg, Hr.
  destruct (content_length resp) as [v|] eqn:Ecl.
  - destruct (Hc v eq_refl) as [k ->]. fold p. unfold open_wb. rewrite Ho.
    rewrite (write_chunks_eq p (body resp) _ []) by (simpl; apply assoc_get_set).
    simpl. rewrite Hb, assoc_set_set. reflexivity.
  - fold p. unfold open_wb. rewrite Ho.
    rewrite (write_chunks_eq p (body resp) _ []) by (simpl; apply assoc_get_set).
    simpl. rewrite Hb, assoc_set_set. reflexivity.
Qed.

Lemma download_app_keeps_partial_file_witness :
  let w := mkworld
             (fun url => inr (mkresponse 200 (u "OK") url None [[1; 2]; [3]]
                                (Some (mkexn (u "ChunkedEncodingError") (u "Connection broken")))))
             (fun _ => None) (fun _ _ => Exited 0 []) (fun _ => None) in
  let resp := mkresponse 200 (u "OK") (u "http://example.com/a.apk") None [[1; 2]; [3]]
                (Some (mkexn (u "ChunkedEncodingError") (u "Connection broken"))) in
  let p := path_join (u "/w") (u "a" ++ u ".apk") in
  let s' := mkst (assoc_set p (concat (body resp)) (files st_empty)) (sheets st_empty)
              (cnt st_empty) (log st_empty ++ [EvGet (u "http://example.com/a.apk")]) in
  download_app w (u "a") (u "http://example.com/a.apk") (u "/w") true st_empty
    = (inr (None, u "下载失败: " ++ u "Connection broken"), s') /\
  assoc_get p (files s') = Some [1; 2; 3].
Proof.
  intros w resp p s'.
  exact (download_app_keeps_partial_file w (u "a") (u "http://example.com/a.apk") (u "/w") true
           st_empty resp (mkexn (u "ChunkedEncodingError") (u "Connection broken"))
           eq_refl eq_refl ltac:(intros v Hv; discriminate Hv) eq_refl eq_refl).
Defined.

Lemma download_app_effects w app_name' url download_dir sp s s' r :
  download_app w app_name' url download_dir sp s = (r, s') ->
  sheets s' = sheets s /\ cnt s' = cnt s /\ log s' = log s ++ [EvGet url] /\
  forall k, k <> path_join download_dir (app_name' ++ u ".apk") ->
    assoc_get k (files s') = assoc_get k (files s).
Proof.
  intros H. apply download_app_state in H as [r0 H].
  apply download_body_cases in H as [[-> _]|(resp & _ & _ & -> & _ & _)]; simpl.
  - done.
  - do 3 (split; [done|]). intros k Hk. by apply assoc_get_set_other.
Qed.

(** X: [download_app] writes to one file only, the target
    [download_dir/<name>.apk]; it does not touch the spreadsheets or the
    counters, and it logs exactly one request, whatever the outcome. *)
Theorem download_app_frame (w : world) (app_name' url download_dir : pystr) (sp : bool)
    (s s' : st) r :
  download_app w app_name' url download_dir sp s = (r, s') ->
  sheets s' = sheets s /\ cnt s' = cnt s /\ log s' = log s ++ [EvGet url] /\
  forall k, k <> path_join download_dir (app_name' ++ u ".apk") ->
    assoc_get k (files s') = assoc_get k (files s).
Proof.
  apply download_app_effects.
Qed.

(** ** The ledger: links are never rewritten *)

Lemma map_insert {A B} (f : A -> B) (l : list A) i x :
  List.map f (<[i := x]> l) = <[i := f x]> (List.map f l).
Proof.
  revert i. induction l as [|y l IH]; intros [|i]; simpl; try done; by rewrite IH.
Qed.

Lemma nth_lookup_map {A B} (f : A -> B) (l : list A) i :
  List.map f l !! i = f <$> l !! i.
Proof.
  revert i. induction l as [|y l IH]; intros [|i]; simpl; try done; apply IH.
Qed.

(** X: when the name is already in the ledger, [update_excel_status]
    keeps every row's name and link, the [url] argument is ignored, and
    the number of rows is unchanged; only the statuses of one row move. *)
Theorem update_excel_status_keeps_links (df : ledger) (app_name' url ds is : pystr) :
  (exists r, r ∈ df /\ app_name r = app_name') ->
  names (update_excel_status df app_name' url ds is) = names df /\
  List.map link (update_excel_status df app_name' url ds is) = List.map link df /\
  length (update_excel_status df app_name' url ds is) = length df.
Proof.
  intros Hex.
  destruct (update_found df app_name' url ds is Hex) as (i & r & _ & Hi & _ & _ & ->).
  unfold names. rewrite !map_insert. simpl.
  rewrite !list_insert_id by (rewrite nth_lookup_map, Hi; done).
  split; [done|]. split; [done|]. apply length_insert.
Qed.

Lemma update_excel_status_keeps_links_witness :
  (exists r, r ∈ demo_ledger /\ app_name r = u "a") /\
  List.map link (update_excel_status demo_ledger (u "a") (u "http://mirror/a.apk")
                   (u "下载成功") (u "安装成功")) = List.map link demo_ledger.
Proof.
  assert (Hex : exists r, r ∈ demo_ledger /\ app_name r = u "a").
  { exists (mkrow (u "a") (u "http://example.com/a.apk") [] []). split; [left|done]. }
  split; [exact Hex|].
  exact (proj1 (proj2 (update_excel_status_keeps_links demo_ledger (u "a")
                         (u "http://mirror/a.apk") (u "下载成功") (u "安装成功") Hex))).
Defined.

(** ** The device id *)

Lemma split_go_tokens cur s :
  Forall (fun c => is_space c = false) cur ->
  Forall (fun t => t <> [] /\ Forall (fun c => is_space c = false) t) (split_go cur s).
Proof.
  revert cur. induction s as [|c s IH]; intros cur Hc; simpl.
  - destruct cur as [|c0 cur]; constructor; [|constructor].
    split; [|by apply Forall_rev].
    intros Hr. apply (f_equal (@length Z)) in Hr. rewrite length_rev in Hr. discriminate.
  - destruct (is_space c) eqn:E.
    + destruct cur as [|c0 cur]; [by apply IH|].
      constructor; [|by apply IH].
      split; [|by apply Forall_rev].
      intros Hr. apply (f_equal (@length Z)) in Hr. rewrite length_rev in Hr. discriminate.
    + apply IH. by constructor.
Qed.

(** X: a device id found by [check_device_online] is a non-empty word
    without whitespace (the first field of the single ready line). *)
Theorem check_device_online_id_word (adb_out : option pystr) (device_id : pystr) :
  check_device_online adb_out = Some device_id ->
  device_id <> [] /\ Forall (fun c => is_space c = false) device_id.
Proof.
  unfold check_device_online. destruct adb_out as [out|]; [|discriminate].
  destruct (Nat.eqb _ 0); [discriminate|]. destruct (Nat.ltb _ _); [discriminate|].
  destruct (ready_lines out) as [|d rest]; [discriminate|].
  pose proof (split_go_tokens [] d (List.Forall_nil _)) as HF. unfold split.
  destruct (split_go [] d) as [|t ts]; [discriminate|]. intros [= <-].
  by apply Forall_cons in HF as [? _].
Qed.

Lemma check_device_online_id_word_witness :
  check_device_online (Some (u "List of devices attached" ++ [10] ++ u "emulator-5554" ++ [9] ++
                             u "device" ++ [10])) = Some (u "emulator-5554") /\
  u "emulator-5554" <> [].
Proof.
  assert (H : check_device_online (Some (u "List of devices attached" ++ [10] ++
               u "emulator-5554" ++ [9] ++ u "device" ++ [10])) = Some (u "emulator-5554"))
    by (vm_compute; reflexivity).
  split; [exact H|]. exact (proj1 (check_device_online_id_word _ _ H)).
Defined.

(** ** Deleting packages touches nothing else *)

Lemma assoc_get_del_ne {V} k k' (l : list (pystr * V)) :
  k' <> k -> assoc_get k (assoc_del k' l) = assoc_get k l.
Proof.
  intros Hne. induction l as [|[k0 v] l IH]; simpl; [done|].
  destruct (streq k0 k') eqn:E1.
  - apply streq_true in E1 as ->.
    destruct (streq k' k) eqn:E; [apply streq_true in E; congruence|done].
  - simpl. destruct (streq k0 k); [done|exact IH].
Qed.

Lemma os_remove_frame w p k s r s' :
  os_remove w p s = (r, s') -> k <> p ->
  assoc_get k (files s') = assoc_get k (files s) /\
  assoc_get k (sheets s') = assoc_get k (sheets s) /\ cnt s' = cnt s.
Proof.
  unfold os_remove. destruct (remove_error w p); [by intros [= _ <-]|].
  destruct (assoc_get p (files s)), (assoc_get p (sheets s)); intros [= _ <-] Hk; simpl;
    try done; rewrite !assoc_get_del_ne by congruence; done.
Qed.

Lemma remove_each_frame w dir apks k s r s' :
  remove_each w dir apks s = (r, s') ->
  (forall f, f ∈ apks -> k <> path_join dir f) ->
  assoc_get k (files s') = assoc_get k (files s) /\
  assoc_get k (sheets s') = assoc_get k (sheets s) /\ cnt s' = cnt s.
Proof.
  revert s. induction apks as [|a apks IH]; intros s H Hk; simpl in H.
  - by injection H as _ <-.
  - unfold bind in H.
    destruct (try_except (os_remove w (path_join dir a)) (fun _ => ret tt) s) as [r1 s1] eqn:H1.
    apply try_remove_eq in H1 as [-> [r0 H1]].
    apply os_remove_frame with (k := k) in H1 as (F1 & S1 & C1);
      [|apply Hk; left].
    destruct (IH s1 H) as (F2 & S2 & C2); [intros f Hf; apply Hk; by right|].
    rewrite F2, S2, C2. done.
Qed.

(** X: [delete_all_apks] removes nothing but the listed [.apk] files of
    the directory: every other path (other files, the ledger) keeps its
    content, and the counters are untouched, whatever the answer. *)
Theorem delete_all_apks_frame (w : world) (current_dir line : pystr) (s s' : st) r
    (entries : list pystr) (k : pystr) :
  fst (listdir current_dir s) = inr entries ->
  delete_all_apks w current_dir line s = (r, s') ->
  (forall f, f ∈ filter (fun f => endswith f (u ".apk") = true) entries ->
     k <> path_join current_dir f) ->
  assoc_get k (files s') = assoc_get k (files s) /\
  assoc_get k (sheets s') = assoc_get k (sheets s) /\ cnt s' = cnt s.
Proof.
  intros Hl H Hk. unfold delete_all_apks, bind in H.
  assert (Hls : listdir current_dir s = (inr entries, s)).
  { unfold listdir in *. simpl in Hl. by injection Hl as <-. }
  rewrite Hls in H.
  destruct (filter (fun f => endswith f (u ".apk") = true) entries) as [|a rest] eqn:Ef.
  - by injection H as _ <-.
  - destruct (streq _ _); [|by injection H as _ <-].
    eapply remove_each_frame; eauto.
Qed.

Lemma delete_all_apks_frame_witness :
  let s := mkst [(u "/w/a.apk", [1]); (u "/w/notes.txt", [2])]
                [(u "/w/download.xlsx", demo_ledger)] counters0 [] in
  fst (listdir (u "/w") s) = inr [u "a.apk"; u "notes.txt"; u "download.xlsx"] /\
  assoc_get (u "/w/notes.txt") (files (snd (delete_all_apks demo_world (u "/w") (u "y") s)))
    = Some [2].
Proof.
  intros s.
  assert (Hl : fst (listdir (u "/w") s) = inr [u "a.apk"; u "notes.txt"; u "download.xlsx"])
    by reflexivity.
  split; [exact Hl|].
  assert (Hk : forall f, f ∈ filter (fun f => endswith f (u ".apk") = true)
                          [u "a.apk"; u "notes.txt"; u "download.xlsx"] ->
                u "/w/notes.txt" <> path_join (u "/w") f).
  { intros f Hf. apply list_elem_of_In in Hf. vm_compute in Hf.
    destruct Hf as [<-|[]]. vm_compute. discriminate. }
  destruct (delete_all_apks demo_world (u "/w") (u "y") s) as [r s'] eqn:E. simpl.
  destruct (delete_all_apks_frame demo_world (u "/w") (u "y") s s' r _ (u "/w/notes.txt") Hl E Hk)
    as [-> _].
  reflexivity.
Defined.

(** ** Running the tasks: what each mode starts *)

Lemma Permutation_concat {A} (l l' : list (list A)) :
  Permutation l l' -> Permutation (concat l) (concat l').
Proof.
  induction 1 as [|x l l' _ IH|x y l|l l' l'' _ IH1 _ IH2]; simpl.
  - constructor.
  - by apply Permutation_app_head.
  - rewrite !app_assoc. apply Permutation_app_tail, Permutation_app_comm.
  - by transitivity (concat l').
Qed.

Lemma map_lookup_seq {A} (gs : list (list A)) :
  List.map (fun i => default [] (gs !! i)) (seq 0 (length gs)) = gs.
Proof.
  induction gs as [|g gs IH]; [done|].
  simpl length. rewrite <- cons_seq. simpl. f_equal.
  rewrite <- seq_shift, map_map. exact IH.
Qed.

Lemma collect_results_state js rs s r s' :
  collect_results js rs s = (r, s') -> s' = s.
Proof.
  revert s. induction js as [|j js IH]; intros s H; simpl in H.
  - by injection H as _ <-.
  - destruct (result_of j rs) as [[e|[]]|]; [by injection H as _ <-|eauto|eauto].
Qed.

Section TaskLogs.

Variable p : event -> bool.

Lemma run_sequential_log (tasks : list (M unit)) (gs : list (list event)) s r s' :
  Forall2 (task_log p) tasks gs ->
  run_sequential tasks s = (r, s') ->
  exists seg, log s' = log s ++ seg /\
    ((r = inr tt /\ filter (fun ev => p ev = true) seg = concat gs) \/
     (exists e k, r = inl e /\ (k < length gs)%nat /\
        filter (fun ev => p ev = true) seg = concat (take (S k) gs))).
Proof.
  intros HF. revert s r s'. induction HF as [|t g tasks gs Ht HF IH]; intros s r s' H; simpl in H.
  - injection H as <- <-. exists []. split; [by rewrite app_nil_r|]. left. done.
  - apply bind_inv in H as [(e & H1 & ->)|([] & s1 & H1 & H)].
    + destruct (Ht _ _ _ H1) as (seg & Hl & Hg). exists seg. split; [done|].
      right. exists e, O. simpl. split; [done|]. split; [lia|]. by rewrite app_nil_r.
    + destruct (Ht _ _ _ H1) as (seg1 & Hl1 & Hg1).
      destruct (IH _ _ _ H) as (seg2 & Hl2 & Hc).
      exists (seg1 ++ seg2). split; [by rewrite Hl2, Hl1, app_assoc|].
      rewrite filter_app, Hg1.
      destruct Hc as [[-> Hc]|(e & k & -> & Hk & Hc)].
      * left. simpl. by rewrite Hc.
      * right. exists e, (S k). simpl. split; [done|]. split; [lia|]. by rewrite Hc.
Qed.

Lemma run_in_order_log (tasks : list (M unit)) (gs : list (list event)) order s r s' :
  Forall2 (task_log p) tasks gs ->
  run_in_order tasks order s = (r, s') ->
  (exists rs, r = inr rs) /\
  exists seg, log s' = log s ++ seg /\
    filter (fun ev => p ev = true) seg = concat (List.map (fun i => default [] (gs !! i)) order).
Proof.
  intros HF. revert s r s'. induction order as [|i order IH]; intros s r s' H; simpl in H.
  - injection H as <- <-. split; [eauto|]. exists []. split; [by rewrite app_nil_r|done].
  - destruct (tasks !! i) as [t|] eqn:Et.
    + destruct (Forall2_lookup_l _ _ _ _ _ HF Et) as (g & Eg & Ht).
      unfold bind, attempt in H. destruct (t s) as [r1 s1] eqn:E1.
      destruct (run_in_order tasks order s1) as [r2 s2] eqn:E2.
      destruct (IH _ _ _ E2) as [[rs ->] (seg2 & Hl2 & Hg2)].
      injection H as <- <-. split; [eauto|].
      destruct (Ht _ _ _ E1) as (seg1 & Hl1 & Hg1).
      exists (seg1 ++ seg2). split; [by rewrite Hl2, Hl1, app_assoc|].
      rewrite filter_app, Hg1, Hg2. simpl. by rewrite Eg.
    + destruct (IH _ _ _ H) as [Hr (seg & Hl & Hg)]. split; [done|].
      exists seg. split; [done|]. rewrite Hg. simpl.
      assert (Eg : gs !! i = None).
      { apply lookup_ge_None. apply lookup_ge_None in Et.
        rewrite <- (Forall2_length _ _ _ HF). done. }
      by rewrite Eg.
Qed.

Lemma thread_pool_log (tasks : list (M unit)) (gs : list (list event)) order s r s' :
  Forall2 (task_log p) tasks gs ->
  Permutation order (seq 0 (length tasks)) ->
  thread_pool tasks order s = (r, s') ->
  exists seg, log s' = log s ++ seg /\
    Permutation (filter (fun ev => p ev = true) seg) (concat gs).
Proof.
  intros HF Hperm H. unfold thread_pool, bind in H.
  destruct (run_in_order tasks order s) as [r1 s1] eqn:E1.
  destruct (run_in_order_log _ _ _ _ _ _ HF E1) as [[rs ->] (seg & Hl & Hg)].
  apply collect_results_state in H as ->.
  exists seg. split; [done|]. rewrite Hg.
  transitivity (concat (List.map (fun i => default [] (gs !! i)) (seq 0 (length gs)))).
  - apply Permutation_concat, Permutation_map. by rewrite <- (Forall2_length _ _ _ HF).
  - by rewrite map_lookup_seq.
Qed.

End TaskLogs.

(** The requests and installs each task logs, whatever its outcome. *)

Lemma install_apk_logs_install w device_id apk_dir excel_file df apk_file :
  task_log is_install (InstallLocal.install_apk w device_id apk_dir excel_file df apk_file)
    [EvInstall device_id (path_join apk_dir apk_file)].
Proof.
  intros s r s' H. unfold InstallLocal.install_apk in H.
  apply bind_inv in H as [(e & H1 & ->)|(st_ & s1 & H1 & H)].
  - exists [EvInstall device_id (path_join apk_dir apk_file)].
    split; [exact (install_app_log _ _ _ _ _ _ _ H1)|done].
  - assert (Hrest : preserves no_install_after
                      (let app_name' := splitext_root apk_file in
                       let* url := InstallLocal.lookup_url df app_name' in
                       let* _ := update_excel_status_file excel_file app_name' url
                                   (u "已下载") st_ in
                       modify_cnt (if contains st_ (u "成功")
                                   then incr_install_success else incr_install_failure))).
    { cbv zeta. unfold InstallLocal.lookup_url. preserve_tac.
      all: apply update_file_no_install. }
    destruct (Hrest _ _ _ H) as (seg & Hl & Hno).
    exists (EvInstall device_id (path_join apk_dir apk_file) :: seg).
    split; [by rewrite Hl, (install_app_log _ _ _ _ _ _ _ H1), <- app_assoc|].
    rewrite filter_cons_True by done. by rewrite no_install_filter.
Qed.

Lemma no_get_refl s : no_get_after s s.
Proof. exists []. by rewrite app_nil_r. Qed.
Lemma no_get_trans s1 s2 s3 :
  no_get_after s1 s2 -> no_get_after s2 s3 -> no_get_after s1 s3.
Proof.
  intros (seg1 & H1 & F1) (seg2 & H2 & F2). exists (seg1 ++ seg2).
  split; [by rewrite H2, H1, app_assoc|by apply Forall_app].
Qed.
Lemma no_get_files s f : no_get_after s (mkst f (sheets s) (cnt s) (log s)).
Proof. exists []. by rewrite app_nil_r. Qed.
Lemma no_get_sheets s sh : no_get_after s (mkst (files s) sh (cnt s) (log s)).
Proof. exists []. by rewrite app_nil_r. Qed.
Lemma emit_no_get ev : is_get ev = false -> preserves no_get_after (emit ev).
Proof. intros Hev s r s' [= _ <-]. exists [ev]. split; [done|by constructor]. Qed.
Lemma modify_no_get f : preserves no_get_after (modify_cnt f).
Proof. intros s r s' [= _ <-]. exists []. by rewrite app_nil_r. Qed.

#[local] Hint Resolve no_get_refl no_get_trans no_get_files no_get_sheets modify_no_get : preserve.
#[local] Hint Extern 1 (preserves no_get_after (emit _)) =>
  apply emit_no_get; reflexivity : preserve.

Lemma install_app_no_get w d p sp : preserves no_get_after (install_app w d p sp).
Proof. unfold install_app. preserve_tac. Qed.

Lemma update_file_no_get ex n url ds is :
  preserves no_get_after (update_excel_status_file ex n url ds is).
Proof. unfold update_excel_status_file. preserve_tac. Qed.

#[local] Hint Resolve install_app_no_get update_file_no_get : preserve.

Lemma no_get_filter seg :
  Forall (fun ev => is_get ev = false) seg -> filter (fun ev => is_get ev = true) seg = [].
Proof.
  induction 1 as [|ev seg Hev _ IH]; [done|].
  rewrite filter_cons_False by congruence. done.
Qed.

Lemma download_app_inr w n url dir sp s r s' :
  download_app w n url dir sp s = (r, s') -> exists v, r = inr v.
Proof.
  unfold download_app, try_except.
  destruct (download_body w n url dir s) as [[e|v] s1]; intros [= <- _]; eauto.
Qed.

Lemma process_app_logs_get w device_id download_dir excel_file (r : row) :
  task_log is_get (DownloadAndInstall.process_app w device_id download_dir excel_file r)
    [EvGet (link r)].
Proof.
  intros s res s' H. unfold DownloadAndInstall.process_app in H.
  unfold bind at 1 in H.
  destruct (download_app w (app_name r) (link r) download_dir true s) as [r1 s1] eqn:E1.
  destruct (download_app_inr _ _ _ _ _ _ _ _ E1) as [[apk ds] ->].
  destruct (download_app_effects _ _ _ _ _ _ _ _ E1) as (_ & _ & Hl1 & _).
  assert (Hrest : preserves no_get_after
    (let* _ := modify_cnt (if contains ds (u "成功")
                           then incr_download_success else incr_download_failure) in
     let* install_status :=
       match apk with
       | Some p =>
           if negb (streq p []) then
             let* s := install_app w device_id p true in
             let* _ := modify_cnt incr_total_installs in
             let* _ := modify_cnt (if contains s (u "成功")
                                   then incr_install_success else incr_install_failure) in
             ret s
           else ret (u "未安装")
       | None => ret (u "未安装")
       end in
     update_excel_status_file excel_file (app_name r) (link r) ds install_status)).
  { preserve_tac. }
  destruct (Hrest _ _ _ H) as (seg & Hl & Hno).
  exists (EvGet (link r) :: seg). split; [by rewrite Hl, Hl1, <- app_assoc|].
  rewrite filter_cons_True by done. by rewrite no_get_filter.
Qed.

Section TaskIncr.

Variable f : counters -> nat.

Lemma run_sequential_incr (tasks : list (M unit)) s s' :
  Forall (task_incr f) tasks -> run_sequential tasks s = (inr tt, s') ->
  f (cnt s') = (f (cnt s) + length tasks)%nat.
Proof.
  intros HF. revert s. induction HF as [|t tasks Ht HF IH]; intros s H; simpl in H.
  - apply ret_eq in H as [_ ->]. simpl. lia.
  - apply bind_inr in H as ([] & s1 & H1 & H). apply Ht in H1.
    apply IH in H. simpl. lia.
Qed.

Lemma run_in_order_incr (tasks : list (M unit)) order s rs s' :
  Forall (task_incr f) tasks -> run_in_order tasks order s = (inr rs, s') ->
  Forall (fun p => p.2 = inr tt) rs ->
  f (cnt s') = (f (cnt s) + length rs)%nat.
Proof.
  intros HF. revert s rs. induction order as [|i order IH]; intros s rs H Hrs; simpl in H.
  - apply ret_eq in H as [[= ->] ->]. simpl. lia.
  - destruct (tasks !! i) as [t|] eqn:Ht; [|by eapply IH].
    apply bind_inr in H as (r1 & s1 & H1 & H).
    apply attempt_eq in H1 as (r1' & [= <-] & H1).
    apply bind_inr in H as (rs' & s2 & H2 & H). apply ret_eq in H as [[= ->] ->].
    apply Forall_cons in Hrs as [Hr1 Hrs]. simpl in Hr1. subst r1.
    assert (Htc : task_incr f t).
    { eapply Forall_forall; [exact HF|]. eapply list_elem_of_lookup_2; eauto. }
    apply Htc in H1. apply IH in H2; [|done]. simpl. lia.
Qed.

Lemma thread_pool_incr (tasks : list (M unit)) order s s' :
  Forall (task_incr f) tasks -> Permutation order (seq 0 (length tasks)) ->
  thread_pool tasks order s = (inr tt, s') ->
  f (cnt s') = (f (cnt s) + length tasks)%nat.
Proof.
  intros HF Hperm H. unfold thread_pool in H.
  apply bind_inr in H as (rs & s1 & H1 & H).
  assert (Hval : Forall (fun i => (i < length tasks)%nat) order).
  { apply Forall_forall. intros i Hi. apply list_elem_of_In in Hi.
    apply (Permutation_in _ Hperm) in Hi. apply in_seq in Hi. lia. }
  pose proof (run_in_order_fst _ _ _ _ _ H1 Hval) as Hfst.
  assert (Hnd : NoDup (map fst rs)).
  { rewrite Hfst. apply NoDup_ListNoDup.
    apply (Permutation_NoDup (Permutation_sym Hperm)). apply seq_NoDup. }
  assert (Hok : Forall (fun p => p.2 = inr tt) rs).
  { apply Forall_forall. intros [i r] Hin. apply list_elem_of_In in Hin.
    assert (Hi : In i (seq 0 (length tasks))).
    { apply (Permutation_in _ Hperm). rewrite <- Hfst.
      apply in_map_iff. exists (i, r). eauto. }
    pose proof (result_of_in _ _ _ Hnd Hin) as Hres.
    destruct r as [e|[]]; [|done].
    exfalso. eapply collect_results_ok; eauto. }
  pose proof (run_in_order_incr _ _ _ _ _ HF H1 Hok) as A.
  assert (Hlen : length rs = length tasks).
  { rewrite <- (length_map fst rs), Hfst, (Permutation_length Hperm). apply length_seq. }
  apply collect_results_state in H as ->. by rewrite A, Hlen.
Qed.

Lemma run_tasks_incr parallel order (tasks : list (M unit)) s s' :
  Forall (task_incr f) tasks ->
  (parallel = true -> Permutation order (seq 0 (length tasks))) ->
  run_tasks parallel order tasks s = (inr tt, s') ->
  f (cnt s') = (f (cnt s) + length tasks)%nat.
Proof.
  intros HF Hp H. unfold run_tasks in H. destruct parallel.
  - apply thread_pool_incr with order; auto.
  - apply run_sequential_incr; auto.
Qed.

End TaskIncr.

Lemma install_apk_incr w device_id apk_dir excel_file df apk_file :
  task_incr isum (InstallLocal.install_apk w device_id apk_dir excel_file df apk_file).
Proof.
  intros s s' H. unfold InstallLocal.install_apk in H.
  apply bind_inr in H as (st_ & s1 & H1 & H).
  pose proof (install_app_same_cnt _ _ _ _ _ _ _ H1) as C1. unfold same_cnt in C1.
  apply bind_inr in H as (url & s2 & H2 & H). apply lookup_url_spec in H2 as [_ ->].
  apply bind_inr in H as ([] & s3 & H3 & H).
  pose proof (update_file_same_cnt _ _ _ _ _ _ _ _ H3) as C3. unfold same_cnt in C3.
  apply modify_cnt_eq in H as [_ ->]. rewrite C3, C1. unfold isum.
  destruct (contains st_ _); simpl; lia.
Qed.

(** ** The install-local workflow *)

(** With the tasks run each as one step, the install counts of a
    completed [install_local_apks] add up. *)
Lemma install_local_apks_counts_atomic (w : world) (device_id apk_dir excel_file : pystr)
    (parallel : bool) (order : list nat) (s s' : st) (rep : install_report) :
  InstallLocal.install_local_apks w device_id apk_dir excel_file parallel order s
    = (inr (Some rep), s') ->
  (parallel = true -> Permutation order (seq 0 (rep_total_installs rep))) ->
  (rep_install_success rep + rep_install_failure rep = rep_total_installs rep)%nat.
Proof.
  intros H Hp. unfold InstallLocal.install_local_apks in H.
  apply bind_inr in H as (ex & s1 & _ & H).
  apply bind_inr in H as ([] & s2 & _ & H).
  apply bind_inr in H as (entries & s3 & _ & H). cbv zeta in H.
  destruct (filter (fun f => endswith f (u ".apk") = true) entries) as [|a rest] eqn:Ef;
    [discriminate|].
  apply bind_inr in H as (df & s4 & _ & H).
  apply bind_inr in H as ([] & s5 & Hz & H). apply modify_cnt_eq in Hz as [_ Hz].
  apply bind_inr in H as ([] & s6 & Hrun & H).
  apply bind_inr in H as (c & s7 & Hc & H). injection Hc as Hc1 Hc2. subst c s7.
  apply ret_eq in H as [[= Hrep] _]. subst rep. simpl. simpl in Hp.
  apply (run_tasks_incr isum) in Hrun.
  - rewrite Hz, length_map in Hrun. unfold isum in Hrun. simpl in Hrun. lia.
  - apply Forall_forall. intros t Ht. apply list_elem_of_In, in_map_iff in Ht as (f0 & <- & _).
    apply install_apk_incr.
  - rewrite length_map. exact Hp.
Qed.

Lemma Forall2_map_same {A B C} (R : B -> C -> Prop) (f : A -> B) (g : A -> C) (l : list A) :
  (forall x, R (f x) (g x)) -> Forall2 R (List.map f l) (List.map g l).
Proof. intros H. induction l as [|x l IH]; simpl; constructor; auto. Qed.

Lemma concat_map_singleton {A B} (e : A -> B) (l : list A) :
  concat (List.map (fun x => [e x]) l) = List.map e l.
Proof. induction l as [|x l IH]; simpl; [done|]. by rewrite IH. Qed.

Lemma install_local_apks_run w device_id apk_dir excel_file parallel order s df0 entries r s' :
  assoc_get excel_file (sheets s) = Some df0 ->
  fst (listdir apk_dir s) = inr entries ->
  InstallLocal.install_local_apks w device_id apk_dir excel_file parallel order s = (r, s') ->
  (filter (fun f => endswith f (u ".apk") = true) entries = [] /\ s' = s /\ r = inr None) \/
  exists s2 r1 s3, log s2 = log s /\
    run_tasks parallel order
      (List.map (InstallLocal.install_apk w device_id apk_dir excel_file df0)
         (filter (fun f => endswith f (u ".apk") = true) entries)) s2 = (r1, s3) /\
    log s' = log s3 /\
    (forall e, r1 = inl e -> r = inl e) /\ (r1 = inr tt -> exists v, r = inr v).
Proof.
  intros Hsh Hl H.
  assert (Hls : listdir apk_dir s = (inr entries, s)).
  { unfold listdir in *. simpl in Hl. by injection Hl as <-. }
  assert (Hpe : path_exists excel_file s = (inr true, s)).
  { unfold path_exists. by rewrite Hsh. }
  assert (Hrd : read_excel excel_file s = (inr df0, s)).
  { unfold read_excel. by rewrite Hsh. }
  unfold InstallLocal.install_local_apks in H.
  rewrite (bind_ret_l _ _ _ _ _ Hpe) in H. cbv beta iota in H.
  rewrite (bind_ret_l (ret tt) _ s tt s eq_refl) in H.
  rewrite (bind_ret_l _ _ _ _ _ Hls) in H. cbv zeta in H.
  destruct (filter (fun f => endswith f (u ".apk") = true) entries) as [|a rest] eqn:Ef.
  - left. by injection H as <- <-.
  - right. rewrite (bind_ret_l _ _ _ _ _ Hrd) in H.
    unfold bind at 1 in H. unfold reset_counters, modify_cnt at 1 in H.
    set (s2 := mkst (files s) (sheets s) counters0 (log s)) in H.
    unfold bind at 1 in H.
    destruct (run_tasks parallel order
                (List.map (InstallLocal.install_apk w device_id apk_dir excel_file df0)
                   (a :: rest)) s2) as [r1 s3] eqn:Er.
    exists s2, r1, s3. split; [done|]. split; [done|].
    destruct r1 as [e|[]].
    + injection H as <- <-. split; [done|]. split; [by intros e' [= ->]|discriminate].
    + unfold bind, get_counters, ret in H. injection H as <- <-.
      split; [done|]. split; [discriminate|eauto].
Qed.

(** X: in the thread-pool mode of [install_local_apks] (with the ledger
    present), every [.apk] file found gets exactly one install attempt,
    even when some task raises: the installs logged are the files found,
    in the order the workers happen to run them. *)
Theorem install_local_apks_pool_installs_each (w : world)
    (device_id apk_dir excel_file : pystr) (order : list nat) (s s' : st) r
    (df0 : ledger) (entries : list pystr) :
  assoc_get excel_file (sheets s) = Some df0 ->
  fst (listdir apk_dir s) = inr entries ->
  Permutation order (seq 0 (length (filter (fun f => endswith f (u ".apk") = true) entries))) ->
  InstallLocal.install_local_apks w device_id apk_dir excel_file true order s = (r, s') ->
  exists seg, log s' = log s ++ seg /\
    Permutation (filter (fun ev => is_install ev = true) seg)
      (List.map (fun f => EvInstall device_id (path_join apk_dir f))
         (filter (fun f => endswith f (u ".apk") = true) entries)).
Proof.
  intros Hsh Hl Hperm H.
  destruct (install_local_apks_run _ _ _ _ _ _ _ _ _ _ _ Hsh Hl H)
    as [(-> & -> & _)|(s2 & r1 & s3 & Hl2 & Hrun & Hl3 & _)].
  - exists []. split; [by rewrite app_nil_r|done].
  - unfold run_tasks in Hrun.
    destruct (thread_pool_log is_install _
                (List.map (fun f => [EvInstall device_id (path_join apk_dir f)])
                   (filter (fun f => endswith f (u ".apk") = true) entries))
                _ _ _ _
                (Forall2_map_same _ _ _ _ (install_apk_logs_install w device_id apk_dir
                                              excel_file df0))
                ltac:(by rewrite length_map) Hrun) as (seg & Hseg & Hp).
    exists seg. split; [by rewrite Hl3, Hseg, Hl2|].
    by rewrite concat_map_singleton in Hp.
Qed.

(** X: in the sequential mode of [install_local_apks] (with the ledger
    present), the [.apk] files are installed one after the other in the
    order of the listing; when a task raises, the workflow raises at once
    and the files after it get no install attempt. *)
Theorem install_local_apks_sequential_stops (w : world)
    (device_id apk_dir excel_file : pystr) (order : list nat) (s s' : st) r
    (df0 : ledger) (entries : list pystr) :
  assoc_get excel_file (sheets s) = Some df0 ->
  fst (listdir apk_dir s) = inr entries ->
  InstallLocal.install_local_apks w device_id apk_dir excel_file false order s = (r, s') ->
  let apk_files := filter (fun f => endswith f (u ".apk") = true) entries in
  exists seg, log s' = log s ++ seg /\
    ((exists v, r = inr v /\
       filter (fun ev => is_install ev = true) seg =
         List.map (fun f => EvInstall device_id (path_join apk_dir f)) apk_files) \/
     (exists e k, r = inl e /\ (k < length apk_files)%nat /\
       filter (fun ev => is_install ev = true) seg =
         List.map (fun f => EvInstall device_id (path_join apk_dir f)) (take (S k) apk_files))).
Proof.
  intros Hsh Hl H apk_files.
  destruct (install_local_apks_run _ _ _ _ _ _ _ _ _ _ _ Hsh Hl H)
    as [(Hf & -> & ->)|(s2 & r1 & s3 & Hl2 & Hrun & Hl3 & He & Hok)].
  - exists []. split; [by rewrite app_nil_r|]. left. exists None. split; [done|].
    unfold apk_files. by rewrite Hf.
  - unfold run_tasks in Hrun.
    destruct (run_sequential_log is_install _
                (List.map (fun f => [EvInstall device_id (path_join apk_dir f)]) apk_files)
                _ _ _
                (Forall2_map_same _ _ _ _ (install_apk_logs_install w device_id apk_dir
                                              excel_file df0))
                Hrun) as (seg & Hseg & Hc).
    exists seg. split; [by rewrite Hl3, Hseg, Hl2|].
    destruct Hc as [[-> Hc]|(e & k & -> & Hk & Hc)].
    + left. destruct (Hok eq_refl) as [v ->]. exists v. split; [done|].
      by rewrite Hc, concat_map_singleton.
    + right. exists e, k. rewrite length_map in Hk. split; [by apply He|]. split; [done|].
      by rewrite Hc, firstn_map, concat_map_singleton.
Qed.

Lemma install_local_apks_pool_installs_each_witness :
  let s := mkst [(u "/w/a.apk", [1]); (u "/w/c.apk", [2])]
                [(u "/w/download.xlsx", demo_ledger)] counters0 [] in
  exists r s',
    InstallLocal.install_local_apks demo_world (u "dev") (u "/w") (u "/w/download.xlsx") true
      [1%nat; 0%nat] s = (r, s') /\
    exists seg, log s' = log s ++ seg /\
      Permutation (filter (fun ev => is_install ev = true) seg)
        [EvInstall (u "dev") (path_join (u "/w") (u "a.apk"));
         EvInstall (u "dev") (path_join (u "/w") (u "c.apk"))].
Proof.
  intros s.
  destruct (InstallLocal.install_local_apks demo_world (u "dev") (u "/w") (u "/w/download.xlsx")
              true [1%nat; 0%nat] s) as [r s'] eqn:E.
  exists r, s'. split; [reflexivity|].
  exact (install_local_apks_pool_installs_each demo_world (u "dev") (u "/w") (u "/w/download.xlsx")
           [1%nat; 0%nat] s s' r demo_ledger [u "a.apk"; u "c.apk"; u "download.xlsx"]
           eq_refl eq_refl (perm_swap 0%nat 1%nat []) E).
Defined.

Lemma install_local_apks_sequential_stops_witness :
  let s := mkst [(u "/w/a.apk", [1]); (u "/w/c.apk", [2])]
                [(u "/w/download.xlsx", demo_ledger)] counters0 [] in
  exists r s',
    InstallLocal.install_local_apks demo_world (u "dev") (u "/w") (u "/w/download.xlsx") false
      [] s = (r, s') /\
    exists seg, log s' = log s ++ seg /\
      ((exists v, r = inr v /\
         filter (fun ev => is_install ev = true) seg =
           [EvInstall (u "dev") (path_join (u "/w") (u "a.apk"));
            EvInstall (u "dev") (path_join (u "/w") (u "c.apk"))]) \/
       (exists e k, r = inl e /\ (k < 2)%nat /\
         filter (fun ev => is_install ev = true) seg =
           List.map (fun f => EvInstall (u "dev") (path_join (u "/w") f))
             (take (S k) [u "a.apk"; u "c.apk"]))).
Proof.
  intros s.
  destruct (InstallLocal.install_local_apks demo_world (u "dev") (u "/w") (u "/w/download.xlsx")
              false [] s) as [r s'] eqn:E.
  exists r, s'. split; [reflexivity|].
  exact (install_local_apks_sequential_stops demo_world (u "dev") (u "/w") (u "/w/download.xlsx")
           [] s s' r demo_ledger [u "a.apk"; u "c.apk"; u "download.xlsx"]
           eq_refl eq_refl E).
Defined.

(** ** The batch workflows: every row is requested in the pool *)

Lemma download_only_process_app_logs_get w download_dir excel_file (r : row) :
  task_log is_get (DownloadOnly.process_app w download_dir excel_file r) [EvGet (link r)].
Proof.
  intros s res s' H. unfold DownloadOnly.process_app in H.
  unfold bind at 1 in H.
  destruct (download_app w (app_name r) (link r) download_dir true s) as [r1 s1] eqn:E1.
  destruct (download_app_inr _ _ _ _ _ _ _ _ E1) as [[apk ds] ->].
  destruct (download_app_effects _ _ _ _ _ _ _ _ E1) as (_ & _ & Hl1 & _).
  assert (Hrest : preserves no_get_after
    (let* _ := modify_cnt (if contains ds (u "成功")
                           then incr_download_success else incr_download_failure) in
     update_excel_status_file excel_file (app_name r) (link r) ds (u "未安装"))).
  { preserve_tac. }
  destruct (Hrest _ _ _ H) as (seg & Hl & Hno).
  exists (EvGet (link r) :: seg). split; [by rewrite Hl, Hl1, <- app_assoc|].
  rewrite filter_cons_True by done. by rewrite no_get_filter.
Qed.

Lemma batch_run {R} (excel_file : pystr) (df : ledger) (tasks_of : ledger -> list (M unit))
    (k : counters -> nat -> R) parallel order s r s' :
  assoc_get excel_file (sheets s) = Some df ->
  (let* ex := path_exists excel_file in
   if negb ex then ret None else
   let* df' := read_excel excel_file in
   let* _ := reset_counters in
   let* _ := run_tasks parallel order (tasks_of df') in
   let* c := get_counters in
   ret (Some (k c (length df')))) s = (r, s') ->
  exists s2 r1 s3, log s2 = log s /\ run_tasks parallel order (tasks_of df) s2 = (r1, s3) /\
    log s' = log s3 /\
    (forall e, r1 = inl e -> r = inl e) /\ (r1 = inr tt -> exists v, r = inr v).
Proof.
  intros Hsh H.
  destruct (workflow_prefix _ _ _ Hsh) as [Hpe Hrd].
  rewrite (bind_ret_l _ _ _ _ _ Hpe) in H. cbv beta iota delta [negb] in H.
  rewrite (bind_ret_l _ _ _ _ _ Hrd) in H.
  unfold bind at 1 in H. unfold reset_counters, modify_cnt at 1 in H.
  set (s2 := mkst (files s) (sheets s) counters0 (log s)) in H.
  unfold bind at 1 in H.
  destruct (run_tasks parallel order (tasks_of df) s2) as [r1 s3] eqn:Er.
  exists s2, r1, s3. split; [done|]. split; [done|].
  destruct r1 as [e|[]].
  - injection H as <- <-. split; [done|]. split; [by intros e' [= ->]|discriminate].
  - unfold bind, get_counters, ret in H. injection H as <- <-.
    split; [done|]. split; [discriminate|eauto].
Qed.

(** X: in the thread-pool mode of both batch workflows (with
    [download.xlsx] present), every ledger row's link is requested exactly
    once, even when some task raises: the requests logged are the rows'
    links, in the order the workers happen to run them. *)
Theorem batch_pool_requests_each (w : world) (device_id download_dir : pystr)
    (dev : option pystr) (order : list nat) (s : st) (df : ledger) :
  assoc_get (path_join download_dir (u "download.xlsx")) (sheets s) = Some df ->
  Permutation order (seq 0 (length df)) ->
  (forall r s',
     DownloadAndInstall.download_and_install_apps w device_id download_dir true order s = (r, s') ->
     exists seg, log s' = log s ++ seg /\
       Permutation (filter (fun ev => is_get ev = true) seg)
         (List.map (fun r0 => EvGet (link r0)) df)) /\
  (forall r s',
     DownloadOnly.download_apps w dev download_dir true order s = (r, s') ->
     exists seg, log s' = log s ++ seg /\
       Permutation (filter (fun ev => is_get ev = true) seg)
         (List.map (fun r0 => EvGet (link r0)) df)).
Proof.
  intros Hsh Hperm. split.
  - intros r s' H.
    apply (batch_run _ _
             (fun df' => List.map (DownloadAndInstall.process_app w device_id download_dir
                                     (path_join download_dir (u "download.xlsx"))) df')
             (fun c n => (mkdownload_report (download_success c) (download_failure c) n,
                          mkinstall_report (install_success c) (install_failure c)
                            (total_installs c))) _ _ _ _ _ Hsh) in H
      as (s2 & r1 & s3 & Hl2 & Hrun & Hl3 & _).
    unfold run_tasks in Hrun.
    destruct (thread_pool_log is_get _ (List.map (fun r0 => [EvGet (link r0)]) df) _ _ _ _
                (Forall2_map_same _ _ _ _ (process_app_logs_get w device_id download_dir _))
                ltac:(by rewrite length_map) Hrun) as (seg & Hseg & Hp).
    exists seg. split; [by rewrite Hl3, Hseg, Hl2|].
    by rewrite concat_map_singleton in Hp.
  - intros r s' H.
    apply (batch_run _ _
             (fun df' => List.map (DownloadOnly.process_app w download_dir
                                     (path_join download_dir (u "download.xlsx"))) df')
             (fun c n => mkdownload_report (download_success c) (download_failure c) n)
             _ _ _ _ _ Hsh) in H
      as (s2 & r1 & s3 & Hl2 & Hrun & Hl3 & _).
    unfold run_tasks in Hrun.
    destruct (thread_pool_log is_get _ (List.map (fun r0 => [EvGet (link r0)]) df) _ _ _ _
                (Forall2_map_same _ _ _ _ (download_only_process_app_logs_get w download_dir _))
                ltac:(by rewrite length_map) Hrun) as (seg & Hseg & Hp).
    exists seg. split; [by rewrite Hl3, Hseg, Hl2|].
    by rewrite concat_map_singleton in Hp.
Qed.

Lemma batch_pool_requests_each_witness :
  exists r s',
    DownloadAndInstall.download_and_install_apps demo_world (u "dev") (u "/w") true
      [1%nat; 0%nat] demo_state = (r, s') /\
    exists seg, log s' = log demo_state ++ seg /\
      Permutation (filter (fun ev => is_get ev = true) seg)
        [EvGet (u "http://example.com/a.apk"); EvGet (u "http://example.com/b.apk")].
Proof.
  destruct (DownloadAndInstall.download_and_install_apps demo_world (u "dev") (u "/w") true
              [1%nat; 0%nat] demo_state) as [r s'] eqn:E.
  exists r, s'. split; [reflexivity|].
  exact (proj1 (batch_pool_requests_each demo_world (u "dev") (u "/w") None [1%nat; 0%nat]
                  demo_state demo_ledger eq_refl (perm_swap 0%nat 1%nat [])) r s' E).
Defined.

(** X: in the sequential mode of both batch workflows (with
    [download.xlsx] present), the rows are processed in ledger order; when
    a row's task raises (e.g. [adb] cannot be started), the workflow raises
    at once and the rows after it are not requested. *)
Theorem batch_sequential_stops (w : world) (device_id download_dir : pystr)
    (dev : option pystr) (order : list nat) (s : st) (df : ledger) :
  assoc_get (path_join download_dir (u "download.xlsx")) (sheets s) = Some df ->
  (forall r s',
     DownloadAndInstall.download_and_install_apps w device_id download_dir false order s = (r, s') ->
     exists seg, log s' = log s ++ seg /\
       ((exists v, r = inr v /\
          filter (fun ev => is_get ev = true) seg = List.map (fun r0 => EvGet (link r0)) df) \/
        (exists e k, r = inl e /\ (k < length df)%nat /\
          filter (fun ev => is_get ev = true) seg =
            List.map (fun r0 => EvGet (link r0)) (take (S k) df)))) /\
  (forall r s',
     DownloadOnly.download_apps w dev download_dir false order s = (r, s') ->
     exists seg, log s' = log s ++ seg /\
       ((exists v, r = inr v /\
          filter (fun ev => is_get ev = true) seg = List.map (fun r0 => EvGet (link r0)) df) \/
        (exists e k, r = inl e /\ (k < length df)%nat /\
          filter (fun ev => is_get ev = true) seg =
            List.map (fun r0 => EvGet (link r0)) (take (S k) df)))).
Proof.
  intros Hsh. split.
  - intros r s' H.
    apply (batch_run _ _
             (fun df' => List.map (DownloadAndInstall.process_app w device_id download_dir
                                     (path_join download_dir (u "download.xlsx"))) df')
             (fun c n => (mkdownload_report (download_success c) (download_failure c) n,
                          mkinstall_report (install_success c) (install_failure c)
                            (total_installs c))) _ _ _ _ _ Hsh) in H
      as (s2 & r1 & s3 & Hl2 & Hrun & Hl3 & He & Hok).
    unfold run_tasks in Hrun.
    destruct (run_sequential_log is_get _ (List.map (fun r0 => [EvGet (link r0)]) df) _ _ _
                (Forall2_map_same _ _ _ _ (process_app_logs_get w device_id download_dir _))
                Hrun) as (seg & Hseg & Hc).
    exists seg. split; [by rewrite Hl3, Hseg, Hl2|].
    destruct Hc as [[-> Hc]|(e & k & -> & Hk & Hc)].
    + left. destruct (Hok eq_refl) as [v ->]. exists v. split; [done|].
      by rewrite Hc, concat_map_singleton.
    + right. exists e, k. rewrite length_map in Hk. split; [by apply He|]. split; [done|].
      by rewrite Hc, firstn_map, concat_map_singleton.
  - intros r s' H.
    apply (batch_run _ _
             (fun df' => List.map (DownloadOnly.process_app w download_dir
                                     (path_join download_dir (u "download.xlsx"))) df')
             (fun c n => mkdownload_report (download_success c) (download_failure c) n)
             _ _ _ _ _ Hsh) in H
      as (s2 & r1 & s3 & Hl2 & Hrun & Hl3 & He & Hok).
    unfold run_tasks in Hrun.
    destruct (run_sequential_log is_get _ (List.map (fun r0 => [EvGet (link r0)]) df) _ _ _
                (Forall2_map_same _ _ _ _ (download_only_process_app_logs_get w download_dir _))
                Hrun) as (seg & Hseg & Hc).
    exists seg. split; [by rewrite Hl3, Hseg, Hl2|].
    destruct Hc as [[-> Hc]|(e & k & -> & Hk & Hc)].
    + left. destruct (Hok eq_refl) as [v ->]. exists v. split; [done|].
      by rewrite Hc, concat_map_singleton.
    + right. exists e, k. rewrite length_map in Hk. split; [by apply He|]. split; [done|].
      by rewrite Hc, firstn_map, concat_map_singleton.
Qed.

Lemma batch_sequential_stops_witness :
  let w := mkworld (http_get demo_world) (open_error demo_world)
             (fun _ _ => RunError (mkexn (u "FileNotFoundError")
                                     (u "[Errno 2] No such file or directory: 'adb'")))
             (remove_error demo_world) in
  exists r s',
    DownloadAndInstall.download_and_install_apps w (u "dev") (u "/w") false [] demo_state = (r, s') /\
    exists seg, log s' = log demo_state ++ seg /\
      ((exists v, r = inr v /\
         filter (fun ev => is_get ev = true) seg = List.map (fun r0 => EvGet (link r0)) demo_ledger) \/
       (exists e k, r = inl e /\ (k < length demo_ledger)%nat /\
         filter (fun ev => is_get ev = true) seg =
           List.map (fun r0 => EvGet (link r0)) (take (S k) demo_ledger))).
Proof.
  intros w.
  destruct (DownloadAndInstall.download_and_install_apps w (u "dev") (u "/w") false []
              demo_state) as [r s'] eqn:E.
  exists r, s'. split; [reflexivity|].
  exact (proj1 (batch_sequential_stops w (u "dev") (u "/w") None [] demo_state demo_ledger
                  eq_refl) r s' E).
Defined.

Lemma download_app_saves_body_witness :
  exists s', download_app demo_world (u "a") (u "http://example.com/a.apk") (u "/w") true st_empty
               = (inr (Some (u "/w/a.apk"), u "下载成功"), s') /\
    assoc_get (u "/w/a.apk") (files s') = Some [1; 2; 3].
Proof.
  assert (H : exists s', download_app demo_world (u "a") (u "http://example.com/a.apk") (u "/w")
                true st_empty = (inr (Some (u "/w/a.apk"), u "下载成功"), s'))
    by (eexists; cbv; reflexivity).
  destruct H as [s' H]. exists s'. split; [exact H|].
  destruct (download_app_saves_body demo_world (u "a") (u "http://example.com/a.apk") (u "/w")
              true st_empty s' (u "/w/a.apk") (u "下载成功") H) as (resp & Hg & _ & _ & Hf).
  rewrite Hf. injection Hg as <-. reflexivity.
Defined.

Lemma download_app_frame_witness :
  exists r s', download_app demo_world (u "b") (u "http://example.com/b.apk") (u "/w") true
                 demo_state = (r, s') /\
    sheets s' = sheets demo_state /\ log s' = log demo_state ++ [EvGet (u "http://example.com/b.apk")].
Proof.
  destruct (download_app demo_world (u "b") (u "http://example.com/b.apk") (u "/w") true
              demo_state) as [r s'] eqn:E.
  exists r, s'. split; [reflexivity|].
  destruct (download_app_frame _ _ _ _ _ _ _ _ E) as (Hs & _ & Hl & _).
  split; [exact Hs | exact Hl].
Defined.

(** ** The menu *)

Lemma os_remove_no_install w p : preserves no_install_after (os_remove w p).
Proof.
  intros s r s'. unfold os_remove. destruct (remove_error w p); [intros [= _ <-]; apply no_install_refl|].
  destruct (assoc_get p (files s)), (assoc_get p (sheets s)); intros [= _ <-];
    try apply no_install_refl; (exists [EvRemove p]; split; [reflexivity|repeat constructor]).
Qed.

Lemma remove_each_no_install w dir apks : preserves no_install_after (remove_each w dir apks).
Proof.
  induction apks as [|a apks IH]; simpl.
  - apply preserves_ret, no_install_refl.
  - apply (preserves_bind _ no_install_trans).
    + apply (preserves_try _ no_install_trans); [apply os_remove_no_install|].
      intros. apply preserves_ret, no_install_refl.
    + intros. exact IH.
Qed.

#[local] Hint Resolve remove_each_no_install download_apps_no_install : preserve.

Lemma delete_all_apks_no_install w dir line : preserves no_install_after (delete_all_apks w dir line).
Proof. unfold delete_all_apks. preserve_tac. Qed.

#[local] Hint Resolve delete_all_apks_no_install : preserve.

(** X: when [adb devices] does not show exactly one ready device, the
    menu never runs the installer, whatever the operator types: options 2
    and 3 do nothing, and the other options never install. *)
Theorem main_no_device_no_install (w : world) (adb_out : option pystr) (current_dir : pystr)
    (sched : nat -> list nat) (inputs : list pystr) (s s' : st) r :
  check_device_online adb_out = None ->
  main w adb_out current_dir sched inputs s = (r, s') ->
  exists seg, log s' = log s ++ seg /\ Forall (fun ev => is_install ev = false) seg.
Proof.
  intros Hdev. unfold main. revert s r s'. generalize 0%nat as i.
  enough (Hall : forall n inputs i, (length inputs <= n)%nat ->
            preserves no_install_after (main_loop w adb_out current_dir sched i inputs)).
  { intros i s r s' H. exact (Hall _ inputs i (le_n _) s r s' H). }
  induction n as [|n IH]; intros inputs' i Hlen.
  - destruct inputs'; [|simpl in Hlen; lia]. simpl.
    apply preserves_raise, no_install_refl.
  - destruct inputs' as [|line rest]; simpl.
    { apply preserves_raise, no_install_refl. }
    simpl in Hlen.
    assert (IHr : forall j, preserves no_install_after (main_loop w adb_out current_dir sched j rest))
      by (intros j; apply IH; lia).
    assert (IHt : forall j, preserves no_install_after
                    (main_loop w adb_out current_dir sched j (tl rest)))
      by (intros j; apply IH; destruct rest; simpl in *; lia).
    rewrite Hdev. destruct rest as [|l2 rest']; simpl in IHt; preserve_tac.
Qed.

Lemma main_no_device_no_install_witness :
  exists r s',
    main demo_world (Some (u "List of devices attached" ++ [10])) (u "/w") (fun _ => [0%nat; 1%nat])
      [u "3"; u "2"; u "1"; u " Q "] demo_state = (r, s') /\
    check_device_online (Some (u "List of devices attached" ++ [10])) = None /\
    exists seg, log s' = log demo_state ++ seg /\ Forall (fun ev => is_install ev = false) seg.
Proof.
  destruct (main demo_world (Some (u "List of devices attached" ++ [10])) (u "/w")
              (fun _ => [0%nat; 1%nat]) [u "3"; u "2"; u "1"; u " Q "] demo_state) as [r s'] eqn:E.
  assert (Hd : check_device_online (Some (u "List of devices attached" ++ [10])) = None)
    by (vm_compute; reflexivity).
  exists r, s'. split; [reflexivity|]. split; [exact Hd|].
  exact (main_no_device_no_install _ _ _ _ _ _ _ _ Hd E).
Defined.

(** * The thread pool with interleaved workers *)

Module ThreadProofs.
Import Threads.

Lemma counter_get_set_same k v c : counter_get k (counter_set k v c) = v.
Proof. by destruct k. Qed.

Lemma counter_get_set_other k k' v c :
  k <> k' -> counter_get k (counter_set k' v c) = counter_get k c.
Proof. intros H. destruct k, k'; simpl; congruence. Qed.

Lemma written_insert done k frames i f f' :
  frames !! i = Some f ->
  (written done k (<[i := f']> frames) + (if done k f then 1 else 0) =
   written done k frames + (if done k f' then 1 else 0))%nat.
Proof.
  intros Hi. unfold written.
  rewrite insert_take_drop by (eapply lookup_lt_Some; eauto).
  set (l1 := take i frames). set (l2 := drop (S i) frames).
  rewrite <- (take_drop_middle frames i f Hi). fold l1 l2.
  rewrite !filter_app, !length_app, !filter_cons.
  destruct (done k f), (done k f'); simpl;
    repeat case_decide; simpl; try congruence; lia.
Qed.


Lemma written_disjoint done k1 k2 frames :
  (forall f, done k1 f = true -> done k2 f = false) ->
  (written done k1 frames + written done k2 frames <= length frames)%nat.
Proof.
  intros Hd. unfold written. induction frames as [|f l IH]; simpl; [lia|].
  rewrite !filter_cons. specialize (Hd f).
  repeat case_decide; simpl; try (pose proof (Hd ltac:(assumption)); congruence); lia.
Qed.

(** One step of a task that keeps to [step_ok] keeps the counter invariant. *)
Lemma step_inv done t k frames i f s :
  step_ok done t -> frames !! i = Some f -> counter_inv done k frames s ->
  counter_inv done k (<[i := (step t f s).1]> frames) (step t f s).2.
Proof.
  intros Hok Hi [Hc Hp]. destruct (Hok k f s) as (Hm & Hcnt & Ht).
  set (f' := (step t f s).1) in *. set (s' := (step t f s).2) in *.
  pose proof (written_insert done k frames i f f' Hi) as Hw.
  assert (Hge : (written done k frames <= written done k (<[i:=f']> frames))%nat).
  { destruct (done k f) eqn:E1; [rewrite (Hm eq_refl) in Hw|]; destruct (done k f'); lia. }
  split.
  - destruct Hcnt as [-> | (Hst & -> & Hd & Hd')]; [lia|].
    rewrite Hd, Hd' in Hw. specialize (Hp i f Hi Hst). lia.
  - intros j g Hg Hgs. destruct (decide (i = j)) as [<-|Hij].
    + rewrite list_lookup_insert_eq in Hg by (eapply lookup_lt_Some; eauto).
      injection Hg as <-. destruct (Ht Hgs) as [Hle|[Hst Heq]]; [lia|].
      specialize (Hp i f Hi Hst). lia.
    + rewrite list_lookup_insert_ne in Hg by done. specialize (Hp j g Hg Hgs). lia.
Qed.

Lemma pool_step_inv done k tasks frames started i s :
  Forall (step_ok done) tasks -> counter_inv done k frames s ->
  counter_inv done k (pool_step tasks frames started i s).1.1 (pool_step tasks frames started i s).2.
Proof.
  intros Hall Hinv. unfold pool_step.
  destruct (tasks !! i) as [t|] eqn:Ht; [|exact Hinv].
  destruct (frames !! i) as [f|] eqn:Hf; [|exact Hinv].
  pose proof (Forall_lookup_1 _ _ _ _ Hall Ht) as Hok.
  pose proof (step_inv done t k frames i f s Hok Hf Hinv) as Hs.
  destruct (step t f s) as [f' s'] eqn:E. simpl in Hs.
  destruct (Nat.ltb i started); [exact Hs|].
  destruct (Nat.eqb i started && Nat.ltb (busy frames started) max_workers); [exact Hs|exact Hinv].
Qed.

Lemma pool_step_length tasks frames started i s :
  length (pool_step tasks frames started i s).1.1 = length frames.
Proof.
  unfold pool_step.
  destruct (tasks !! i), (frames !! i); try reflexivity.
  destruct (step _ _ _). destruct (Nat.ltb i started); [apply length_insert|].
  destruct (_ && _); [apply length_insert|reflexivity].
Qed.

Lemma run_schedule_inv done k tasks sched : forall frames started s,
  Forall (step_ok done) tasks -> counter_inv done k frames s ->
  counter_inv done k (run_schedule tasks frames started sched s).1
                     (run_schedule tasks frames started sched s).2.
Proof.
  induction sched as [|i rest IH]; intros frames started s Hall Hinv; simpl; [done|].
  pose proof (pool_step_inv done k tasks frames started i s Hall Hinv) as Hs.
  destruct (pool_step tasks frames started i s) as [[frames' started'] s'].
  exact (IH frames' started' s' Hall Hs).
Qed.

Lemma run_schedule_length tasks sched : forall frames started s,
  length (run_schedule tasks frames started sched s).1 = length frames.
Proof.
  induction sched as [|i rest IH]; intros frames started s; simpl; [done|].
  pose proof (pool_step_length tasks frames started i s) as Hl.
  destruct (pool_step tasks frames started i s) as [[frames' started'] s'].
  simpl in Hl. by rewrite IH.
Qed.

Lemma written_frame0 {A} done k (l : list A) :
  done k frame0 = false -> written done k (List.map (fun _ => frame0) l) = 0%nat.
Proof.
  intros H. unfold written. induction l as [|x l IH]; simpl; [done|].
  rewrite filter_cons. case_decide; [congruence|exact IH].
Qed.

Lemma counter_inv_init {A} done k (l : list A) s :
  done k frame0 = false -> counter_get k (cnt s) = 0%nat ->
  counter_inv done k (List.map (fun _ => frame0) l) s.
Proof.
  intros H0 Hc. split.
  - rewrite written_frame0 by done. lia.
  - intros j g Hg. apply list_elem_of_lookup_2, list_elem_of_In, in_map_iff in Hg
      as (x & <- & _). discriminate.
Qed.

(** Whatever the interleaving, when the pool is done each counter that
    started at zero is at most the number of tasks past their store to it. *)
Lemma thread_pool_counters done tasks sched s r s' :
  Forall (step_ok done) tasks -> (forall k, done k frame0 = false) ->
  thread_pool tasks sched s = (r, s') ->
  exists frames, length frames = length tasks /\
    forall k, counter_get k (cnt s) = 0%nat -> (counter_get k (cnt s') <= written done k frames)%nat.
Proof.
  intros Hall H0 H. unfold thread_pool in H.
  destruct (run_schedule tasks (List.map (fun _ => frame0) tasks) 0
              (sched ++ drain (length tasks)) s) as [frames s1] eqn:E.
  assert (Hs1 : s1 = s') by (destruct (first_error frames); congruence). subst s1.
  exists frames. split.
  - pose proof (run_schedule_length tasks (sched ++ drain (length tasks))
                  (List.map (fun _ => frame0) tasks) 0 s) as Hl.
    rewrite E, length_map in Hl. exact Hl.
  - intros k Hk.
    pose proof (run_schedule_inv done k tasks (sched ++ drain (length tasks))
                  (List.map (fun _ => frame0) tasks) 0 s Hall
                  (counter_inv_init done k tasks s (H0 k) Hk)) as Hr.
    rewrite E in Hr. apply Hr.
Qed.

Lemma lookup_url_same_cnt df n : preserves same_cnt (InstallLocal.lookup_url df n).
Proof.
  intros s r s'. unfold InstallLocal.lookup_url.
  destruct (existsb _ _); [destruct (rows_named n df)|]; intros [= _ <-]; reflexivity.
Qed.

(** Every program point of the three task bodies keeps to [step_ok]:
    [step_crush] runs the step, [step_finish] settles the three parts. *)
Ltac step_crush :=
  repeat (match goal with
  | |- context [download_app ?w ?a ?b ?c ?d ?s] =>
      let E := fresh "E" in
      destruct (download_app w a b c d s) as [[?|[? ?]] ?] eqn:E;
      apply download_app_same_cnt in E; unfold same_cnt in E
  | |- context [install_app ?w ?a ?b ?c ?s] =>
      let E := fresh "E" in
      destruct (install_app w a b c s) as [[?|?] ?] eqn:E;
      apply install_app_same_cnt in E; unfold same_cnt in E
  | |- context [InstallLocal.lookup_url ?df ?n ?s] =>
      let E := fresh "E" in
      destruct (InstallLocal.lookup_url df n s) as [[?|?] ?] eqn:E;
      apply lookup_url_same_cnt in E; unfold same_cnt in E
  | |- context [assoc_get ?p (sheets ?s)] => destruct (assoc_get p (sheets s))
  | |- context [match ?x with Some _ => _ | None => _ end] => destruct x
  | |- context [negb (streq ?p [])] => destruct (negb (streq p []))
  end; unfold bind, ret in *; cbn -[download_app install_app InstallLocal.lookup_url contains streq
             counter_get counter_set done_process_app done_download_only done_install_apk] in *).

Ltac counter_absurd :=
  match goal with
  | H : download_counter ?ds = _ |- _ =>
      revert H; unfold download_counter; destruct (contains ds _); discriminate
  | H : install_counter ?is = _ |- _ =>
      revert H; unfold install_counter; destruct (contains is _); discriminate
  end.

Ltac step_finish k :=
  unfold goto, set_download, set_install_status, set_url, set_loaded, set_df, set_result in *;
  split; [|split];
  [ let H := fresh in intros H; destruct k; cbn in *; first [exact H | discriminate | reflexivity]
  | first [ left; cbn; congruence
          | match goal with
            | |- context [counter_set ?k0 _ _] =>
                destruct (decide (k0 = k)) as [Hk|Hne];
                [ right; split; [by rewrite Hk|]; split;
                  [rewrite <- Hk; apply counter_get_set_same|];
                  split; destruct k; cbn; try case_bool_decide;
                  first [reflexivity | congruence | counter_absurd]
                | left; apply counter_get_set_other; congruence ]
            end ]
  | let H := fresh in intros H; cbn in H;
    first [discriminate | left; injection H as <-; cbn; lia | right; split; [exact H|reflexivity]] ].



Lemma install_apk_step_ok w d dir ex df a :
  step_ok done_install_apk (install_apk w d dir ex df a).
Proof.
  intros k [p ap ds is url v df' res] s. unfold step. simpl f_pc.
  destruct p; unfold install_apk, bind, load, store, get_counters, modify_cnt, ret,
    read_excel, to_excel, emit;
    cbn -[install_app InstallLocal.lookup_url contains streq counter_get counter_set
          done_install_apk];
    step_crush; step_finish k.
Qed.



Lemma done_install_apk_frame0 k : done_install_apk k frame0 = false.
Proof. by destruct k. Qed.

Lemma counters0_get k : counter_get k counters0 = 0%nat.
Proof. by destruct k. Qed.

(** A task stores to one of the success and failure counters, never both. *)
Ltac disjoint_tac :=
  intros [p ap ds is url v df res]; cbn;
  repeat case_bool_decide; rewrite ?andb_false_r, ?andb_true_r; try congruence;
  intros; discriminate.




Lemma done_install_apk_disjoint f :
  done_install_apk InstallSuccess f = true -> done_install_apk InstallFailure f = false.
Proof. revert f. disjoint_tac. Qed.

(** From counters at zero, a pool run leaves a success and a failure
    counter that add up to at most the number of tasks. *)
Lemma pool_counts_bound done tasks sched s r s' k1 k2 :
  Forall (step_ok done) tasks -> (forall k, done k frame0 = false) ->
  (forall f, done k1 f = true -> done k2 f = false) ->
  cnt s = counters0 -> thread_pool tasks sched s = (r, s') ->
  (counter_get k1 (cnt s') + counter_get k2 (cnt s') <= length tasks)%nat.
Proof.
  intros Hok H0 Hd Hc Hp.
  destruct (thread_pool_counters done tasks sched s r s' Hok H0 Hp) as (frames & Hl & Hb).
  pose proof (Hb k1 ltac:(rewrite Hc; apply counters0_get)).
  pose proof (Hb k2 ltac:(rewrite Hc; apply counters0_get)).
  pose proof (written_disjoint done k1 k2 frames Hd). lia.
Qed.


Lemma Forall_map_step_ok {A} done (t : A -> task) l :
  (forall x, step_ok done (t x)) -> Forall (step_ok done) (List.map t l).
Proof.
  intros H. apply Forall_forall. intros x Hx.
  apply list_elem_of_In, in_map_iff in Hx as (y & <- & _). apply H.
Qed.

End ThreadProofs.

Import ThreadProofs.




(** X: a completed [install_local_apks] reports install successes plus
    failures equal to the number of [.apk] files without the thread pool,
    and at most that number with it, whatever the interleaving of the
    workers. *)
Theorem install_local_apks_counts_by_mode (w : world) (device_id apk_dir excel_file : pystr)
    (parallel : bool) (sched : list nat) (s s' : st) (rep : install_report) :
  Threads.install_local_apks w device_id apk_dir excel_file parallel sched s
    = (inr (Some rep), s') ->
  (rep_install_success rep + rep_install_failure rep <= rep_total_installs rep)%nat /\
  (parallel = false ->
   rep_install_success rep + rep_install_failure rep = rep_total_installs rep)%nat.
Proof.
  intros H. destruct parallel.
  - split; [|discriminate]. unfold Threads.install_local_apks in H.
    apply bind_inr in H as (ex & s1 & _ & H).
    apply bind_inr in H as ([] & s2 & _ & H).
    apply bind_inr in H as (entries & s3 & _ & H). cbv zeta in H.
    destruct (filter (fun f => endswith f (u ".apk") = true) entries) as [|a rest] eqn:Ef;
      [discriminate|].
    apply bind_inr in H as (df & s4 & _ & H).
    apply bind_inr in H as ([] & s5 & Hz & H). apply modify_cnt_eq in Hz as [_ Hz].
    apply bind_inr in H as ([] & s6 & Hrun & H).
    apply bind_inr in H as (c & s7 & Hc & H). injection Hc as Hc1 Hc2. subst c s7.
    apply ret_eq in H as [[= Hrep] _]. subst rep. simpl.
    assert (Hok := Forall_map_step_ok _ _ (a :: rest)
                     (install_apk_step_ok w device_id apk_dir excel_file df)).
    pose proof (pool_counts_bound _ _ _ _ _ _ Threads.InstallSuccess Threads.InstallFailure
                  Hok done_install_apk_frame0
                  done_install_apk_disjoint Hz Hrun) as A.
    rewrite length_map in A. simpl in A. lia.
  - pose proof (install_local_apks_counts_atomic w device_id apk_dir excel_file false [] s s'
                  rep H ltac:(discriminate)). lia.
Qed.

Lemma install_local_apks_counts_by_mode_witness :
  Threads.install_local_apks demo_world (u "dev") (u "/w") (u "/w/download.xlsx") true
    [0; 1; 0; 1; 0; 1]%nat two_apks
    = (inr (Some (mkinstall_report 1 1 2)),
       snd (Threads.install_local_apks demo_world (u "dev") (u "/w") (u "/w/download.xlsx") true
              [0; 1; 0; 1; 0; 1]%nat two_apks)) /\
  (1 + 1 <= 2)%nat.
Proof.
  assert (H : Threads.install_local_apks demo_world (u "dev") (u "/w") (u "/w/download.xlsx") true
                [0; 1; 0; 1; 0; 1]%nat two_apks
              = (inr (Some (mkinstall_report 1 1 2)),
                 snd (Threads.install_local_apks demo_world (u "dev") (u "/w")
                        (u "/w/download.xlsx") true [0; 1; 0; 1; 0; 1]%nat two_apks)))
    by (vm_compute; reflexivity).
  split; [exact H|].
  exact (proj1 (install_local_apks_counts_by_mode _ _ _ _ _ _ _ _ _ H)).
Defined.

(** X: with the thread pool, the read-modify-write of the ledger by two
    workers can lose an update: [a.apk] installs and its upsert is logged,
    but the saved ledger keeps row [a] with empty statuses, overwritten by
    the worker of [b.apk] with the ledger it had read before. *)
Theorem install_local_apks_pool_ledger_race :
  let '(r, s') := Threads.install_local_apks demo_world (u "dev") (u "/w") (u "/w/download.xlsx")
                    true race_sched two_apks in
  r = inr (Some (mkinstall_report 1 1 2)) /\
  nth_error (log s') 2
    = Some (EvUpsert (u "a") (u "http://example.com/a.apk") (u "已下载") (u "安装成功")) /\
  option_map (rows_named (u "a")) (assoc_get (u "/w/download.xlsx") (sheets s'))
    = Some [mkrow (u "a") (u "http://example.com/a.apk") [] []].
Proof. vm_compute. split; [reflexivity|split; reflexivity]. Qed.
